(** * Elevation pipeline (elevation.py): batching, fetching, assembling, averaging

    A shallow embedding of class [Elevation] of [src/elevation.py] and the
    proofs of the properties its specification states.

    Conventions.
    - Python exceptions are values of [exn]; a call that may raise returns a
      [result].
    - A generator is represented by the list of the values it yields.
    - The decorator [timing] prints a duration and returns the result of
      the call unchanged; it is left out.
    - Coordinates are kept as the text [str(...)] produces for them, the
      reference elevation [z] and the elevations of the service are binary64
      floats.
    - Everything outside the program is a field of [World]: the environment
      variable that sets the batch size, the service answering the calls and
      the order in which concurrent calls finish. *)

From Stdlib Require Import List ZArith Lia Bool String Ascii Permutation PrimFloat.
Import ListNotations.
Local Open Scope Z_scope.

(** ** Python values, exceptions and built-ins used by the code *)

Module Py.

Inductive exn : Type :=
| ValueError_range_step                   (* range() arg 3 must not be zero *)
| ValueError_length (values index : nat)  (* Length of values (v) does not match length of index (i) *)
| KeyError (key : string)
| TypeError
| AttributeError
| JSONDecodeError
| TransportError.                         (* connection failure, timeout *)

Inductive result (A : Type) : Type :=
| Ok (a : A)
| Err (e : exn).
Arguments Ok {A} a.
Arguments Err {A} e.

Definition bind {A B : Type} (r : result A) (k : A -> result B) : result B :=
  match r with
  | Ok a => k a
  | Err e => Err e
  end.

(** [len(range(start, stop, step))] as CPython computes it. *)
Definition range_length (start stop step : Z) : Z :=
  if 0 <? step then
    if start <? stop then (stop - start - 1) / step + 1 else 0
  else
    if stop <? start then (start - stop - 1) / (- step) + 1 else 0.

(** [range(start, stop, step)]; a zero step raises [ValueError]. *)
Definition range (start stop step : Z) : result (list Z) :=
  if step =? 0 then Err ValueError_range_step
  else Ok (map (fun i => start + Z.of_nat i * step)
               (seq 0 (Z.to_nat (range_length start stop step)))).

(** A slice bound brought into [0 .. len]: negative bounds count from the
    end, bounds past either end are clamped. *)
Definition slice_bound (len i : Z) : Z :=
  if i <? 0 then Z.max (i + len) 0 else Z.min i len.

(** [l[lo:hi]]. *)
Definition slice {A : Type} (l : list A) (lo hi : Z) : list A :=
  let len := Z.of_nat (List.length l) in
  let a := slice_bound len lo in
  let b := slice_bound len hi in
  firstn (Z.to_nat (b - a)) (skipn (Z.to_nat a) l).

(** [sep.join(parts)]. *)
Fixpoint join (sep : string) (parts : list string) : string :=
  match parts with
  | [] => EmptyString
  | [p] => p
  | p :: rest => (p ++ sep ++ join sep rest)%string
  end.

(** [s.replace(c, "")] for a one-character [c]. *)
Fixpoint remove (c : ascii) (s : string) : string :=
  match s with
  | EmptyString => EmptyString
  | String a s' => if Ascii.eqb a c then remove c s' else String a (remove c s')
  end.

(** [s.split(c)] for a one-character separator [c]. *)
Fixpoint split (c : ascii) (s : string) : list string :=
  match s with
  | EmptyString => [EmptyString]
  | String a s' =>
      if Ascii.eqb a c then EmptyString :: split c s'
      else match split c s' with
           | [] => [String a EmptyString]
           | g :: gs => String a g :: gs
           end
  end.

(** [c.isspace()] on the ASCII range. *)
Definition isspace (c : ascii) : bool :=
  let n := nat_of_ascii c in
  ((9 <=? n) && (n <=? 13) || (28 <=? n) && (n <=? 32))%nat.

Fixpoint all_chars (p : ascii -> bool) (s : string) : bool :=
  match s with
  | EmptyString => true
  | String a s' => p a && all_chars p s'
  end.

#[local] Set Warnings "-register-all".

(** Decoded JSON: what [json.loads] and [response.json()] return. *)
Inductive json : Type :=
| JNull                                   (* None *)
| JBool (b : bool)
| JNum (x : float)
| JStr (s : string)
| JArr (items : list json)
| JObj (fields : list (string * json)).

(** What a variable of the program may hold at the places modelled here: a
    decoded JSON value, or an exception instance (the entry that
    [asyncio.gather(..., return_exceptions=True)] returns for a failed call). *)
Inductive pyobj : Type :=
| PyJson (j : json)
| PyExc (e : exn).

Fixpoint dict_get (fields : list (string * json)) (key : string) : option json :=
  match fields with
  | [] => None
  | (k, v) :: rest => if String.eqb k key then Some v else dict_get rest key
  end.

(** [o[key]] for a string [key]. *)
Definition getitem (o : pyobj) (key : string) : result json :=
  match o with
  | PyJson (JObj fields) =>
      match dict_get fields key with
      | Some v => Ok v
      | None => Err (KeyError key)
      end
  | _ => Err TypeError
  end.

(** The values that [for item in v] goes through. *)
Definition iter (v : json) : result (list json) :=
  match v with
  | JArr items => Ok items
  | JObj fields => Ok (map (fun kv => JStr (fst kv)) fields)
  | JStr s => Ok (map (fun c => JStr (String c EmptyString)) (list_ascii_of_string s))
  | _ => Err TypeError
  end.

(** [item.get(key)]: only a dict has the method. *)
Definition get (item : json) (key : string) : result json :=
  match item with
  | JObj fields =>
      Ok (match dict_get fields key with Some v => v | None => JNull end)
  | _ => Err AttributeError
  end.

(** [[f(x) for x in xs]] where [f] may raise. *)
Fixpoint comprehension {A B : Type} (f : A -> result B) (xs : list A)
  : result (list B) :=
  match xs with
  | [] => Ok []
  | x :: rest =>
      match f x with
      | Err e => Err e
      | Ok y => match comprehension f rest with
                | Err e => Err e
                | Ok ys => Ok (y :: ys)
                end
      end
  end.

End Py.
Import Py.

Notation "x <- r ;; k" := (bind r (fun x => k))
  (at level 61, r at next level, right associativity).

(** ** The world outside the program *)

(** A [requests] response: its status and what [resp.json()] gives. *)
Record Response : Type := mkResponse {
  status_code : Z;
  json_body : result json
}.

(** What [session.get(url)] meets in a concurrent call. *)
Inductive AsyncResponse : Type :=
| Replied (status : Z) (body : result json)
| Failed (e : exn).

Record World : Type := mkWorld {
  (** [os.environ.get("BATCH_SIZE")], read by [int] *)
  BATCH_SIZE : option Z;
  (** [requests.get(uri)], given the requests made before it *)
  service : list string -> string -> result Response;
  (** what the [i]-th concurrent call, on [url], meets *)
  async_reply : nat -> string -> AsyncResponse;
  (** the concurrent calls, by position, in the order they finish *)
  finish_order : list nat
}.

Definition environ_BATCH_SIZE (w : World) (default : Z) : Z :=
  match BATCH_SIZE w with
  | Some n => n
  | None => default
  end.

(** Code that makes synchronous requests: it reads and extends the list of
    the requests made so far. *)
Definition Net (A : Type) : Type := list string -> result A * list string.

Definition net_ret {A : Type} (a : A) : Net A := fun log => (Ok a, log).

Definition net_lift {A : Type} (r : result A) : Net A := fun log => (r, log).

Definition net_bind {A B : Type} (m : Net A) (k : A -> Net B) : Net B :=
  fun log =>
    match m log with
    | (Ok a, log') => k a log'
    | (Err e, log') => (Err e, log')
    end.

Notation "x <~ m ;; k" := (net_bind m (fun x => k))
  (at level 61, m at next level, right associativity).

Definition http_get (w : World) (uri : string) : Net Response :=
  fun log => (service w log uri, log ++ [uri]).

(** ** class Elevation *)

(** One element of [self.locations]: [lat] and [lon] hold the text that
    [str(item.get(...))] gives, [z] the reference elevation. *)
Record Point : Type := mkPoint {
  lat : string;
  lon : string;
  z : float
}.

Record Elevation : Type := mkElevation {
  locations : list Point;
  api_key : string;
  google_url : string
}.

Definition init (locations : list Point) (api_key : string) : Elevation :=
  {| locations := locations;
     api_key := api_key;
     google_url := "https://maps.googleapis.com/maps/api/elevation/json?locations=" |}.

Definition coords_list (self : Elevation) : list (string * string) :=
  map (fun item => (lat item, lon item)) (locations self).

Definition coords_string (coords : list (string * string)) : string :=
  remove " " (join "|" (map (fun it => (fst it ++ ", " ++ snd it)%string) coords)).

(** The loop shared by [create_batch_for_polyline] and [batch_coords_to_str]:
    [for ndx in range(0, ln, batch_size)] over
    [coords[ndx:min(ndx + batch_size, ln)]]. *)
Definition batch_slices {A : Type} (coords : list A) (batch_size : Z)
  : result (list (list A)) :=
  let ln := Z.of_nat (List.length coords) in
  ndxs <- range 0 ln batch_size ;;
  Ok (map (fun ndx => slice coords ndx (Z.min (ndx + batch_size) ln)) ndxs).

Definition create_batch_for_polyline (self : Elevation) (batch_size : Z)
  : result (list (list (string * string))) :=
  batch_slices (coords_list self) batch_size.

Definition batch_coords_to_str (self : Elevation) (batch_size : Z)
  : result (list string) :=
  chunks <- batch_slices (coords_list self) batch_size ;;
  Ok (map coords_string chunks).

Definition make_coords_strings_list (w : World) (self : Elevation)
  : result (list string) :=
  batch_coords_to_str self (environ_BATCH_SIZE w 300).

Definition make_uri (self : Elevation) (coords_str : string) : string :=
  (google_url self ++ coords_str ++ "&key=" ++ api_key self)%string.

Definition make_request (w : World) (self : Elevation) (coords_str : string)
  : Net Response :=
  http_get w (make_uri self coords_str).

Definition generate_urls (w : World) (self : Elevation) : result (list string) :=
  c_strs <- make_coords_strings_list w self ;;
  Ok (map (make_uri self) c_strs).

Definition get_elevation_from_request (resp_res : pyobj) : result (list json) :=
  results <- getitem resp_res "results" ;;
  items <- iter results ;;
  comprehension (fun item => get item "elevation") items.

(** The [for item in c_strs] loop of [get_google_data]. *)
Fixpoint get_google_data_loop (w : World) (self : Elevation)
    (c_strs : list string) (elevation_list : list json) : Net (list json) :=
  match c_strs with
  | [] => net_ret elevation_list
  | item :: rest =>
      resp <~ make_request w self item ;;
      if status_code resp =? 200 then
        elevations <~ net_lift (payload <- json_body resp ;;
                                get_elevation_from_request (PyJson payload)) ;;
        get_google_data_loop w self rest (elevation_list ++ elevations)
      else
        get_google_data_loop w self rest elevation_list
  end.

Definition get_google_data (w : World) (self : Elevation) : Net (list json) :=
  c_strs <~ net_lift (make_coords_strings_list w self) ;;
  get_google_data_loop w self c_strs [].

(** *** The concurrent path *)

(** [make_async_request], run as the [i]-th task: the decoded payload on
    status 200, [None] (the function falls off its end) on any other
    status, and the exception when [session.get] or [response.json()]
    raises.  The shared session is part of the world; the position of the
    task tells the world which call it answers. *)
Definition make_async_request (w : World) (i : nat) (url : string) : result json :=
  match async_reply w i url with
  | Failed e => Err e
  | Replied status body => if status =? 200 then body else Ok JNull
  end.

(** The entry of a finished child in the result of
    [gather(..., return_exceptions=True)]. *)
Definition gathered (r : result json) : pyobj :=
  match r with
  | Ok j => PyJson j
  | Err e => PyExc e
  end.

(** [asyncio.gather]: the children in argument order, each pending ([None])
    or finished, the count of finished children and the result of the outer
    future once it is set. *)
Record Gather : Type := mkGather {
  children : list (option pyobj);
  nfinished : nat;
  outer : option (list pyobj)
}.

Fixpoint set_nth {A : Type} (i : nat) (x : A) (l : list A) : list A :=
  match l, i with
  | [], _ => []
  | _ :: l', O => x :: l'
  | y :: l', S i' => y :: set_nth i' x l'
  end.

(** [[fut.result() for fut in children]], defined when all have finished. *)
Fixpoint results (children : list (option pyobj)) : option (list pyobj) :=
  match children with
  | [] => Some []
  | None :: _ => None
  | Some r :: rest =>
      match results rest with
      | Some rs => Some (r :: rs)
      | None => None
      end
  end.

(** [_done_callback]: count the child, and when it was the last one set the
    outer future to the children's results, in the order of [children]. *)
Definition done_callback (nfuts : nat) (g : Gather) : Gather :=
  let n := S (nfinished g) in
  {| children := children g;
     nfinished := n;
     outer := if (n =? nfuts)%nat then results (children g) else outer g |}.

(** Task [i] finishes with [tasks[i]]; a position that names no pending task
    changes nothing. *)
Definition finish (tasks : list (result json)) (g : Gather) (i : nat) : Gather :=
  match nth_error (children g) i, nth_error tasks i with
  | Some None, Some r =>
      done_callback (List.length tasks)
        {| children := set_nth i (Some (gathered r)) (children g);
           nfinished := nfinished g;
           outer := outer g |}
  | _, _ => g
  end.

(** [await asyncio.gather] of the tasks, with [return_exceptions=True], when they
    finish in the order [order]; [None] when the outer future is never set,
    so that the [await] does not return. *)
Definition gather (tasks : list (result json)) (order : list nat)
  : option (list pyobj) :=
  let nfuts := List.length tasks in
  outer (fold_left (finish tasks) order
           {| children := repeat None nfuts;
              nfinished := 0;
              outer := if (nfuts =? 0)%nat then Some [] else None |}).

Definition enumerate {A : Type} (l : list A) : list (nat * A) :=
  combine (seq 0 (List.length l)) l.

Definition fetch_data (w : World) (urls : list string) : option (list pyobj) :=
  let tasks := map (fun iu => make_async_request w (fst iu) (snd iu)) (enumerate urls) in
  gather tasks (finish_order w).

(** The [for item in responses] loop of [get_google_data_async]. *)
Fixpoint get_google_data_async_loop (responses : list pyobj) (elevations : list json)
  : result (list json) :=
  match responses with
  | [] => Ok elevations
  | item :: rest =>
      es <- get_elevation_from_request item ;;
      get_google_data_async_loop rest (elevations ++ es)
  end.

Definition get_google_data_async (w : World) (self : Elevation)
  : option (result (list json)) :=
  match generate_urls w self with
  | Err e => Some (Err e)
  | Ok urls =>
      match fetch_data w urls with
      | None => None
      | Some responses => Some (get_google_data_async_loop responses [])
      end
  end.

(** *** The data frame of [get_average_elevation] *)

(** A data frame: the length of its index and its columns. *)
Record DataFrame : Type := mkDataFrame {
  index : nat;
  columns : list (string * list json)
}.

(** [gpd.GeoDataFrame(locations)]: one row per location and one column per
    key; no row and no column for an empty list.  The cells of [lat] and
    [lon] are kept as their text. *)
Definition GeoDataFrame (locations : list Point) : DataFrame :=
  match locations with
  | [] => {| index := 0; columns := [] |}
  | _ => {| index := List.length locations;
            columns := [("lat"%string, map (fun p => JStr (lat p)) locations);
                        ("lon"%string, map (fun p => JStr (lon p)) locations);
                        ("z"%string, map (fun p => JNum (z p)) locations)] |}
  end.

Fixpoint put_column (key : string) (values : list json)
    (cols : list (string * list json)) : list (string * list json) :=
  match cols with
  | [] => [(key, values)]
  | (k, c) :: rest =>
      if String.eqb k key then (k, values) :: rest
      else (k, c) :: put_column key values rest
  end.

(** [df[key] = values] for a list [values]: a frame whose index is empty
    takes the index of the list; otherwise the lengths must agree, or
    pandas raises [ValueError: Length of values (v) does not match length
    of index (i)]. *)
Definition setitem (df : DataFrame) (key : string) (values : list json)
  : result DataFrame :=
  let n := List.length values in
  if (index df =? 0)%nat then
    Ok {| index := n;
          columns := put_column key values
                       (map (fun kc => (fst kc, repeat JNull n)) (columns df)) |}
  else if (n =? index df)%nat then
    Ok {| index := index df; columns := put_column key values (columns df) |}
  else Err (ValueError_length n (index df)).

Fixpoint find_column (key : string) (cols : list (string * list json))
  : option (list json) :=
  match cols with
  | [] => None
  | (k, c) :: rest => if String.eqb k key then Some c else find_column key rest
  end.

(** [df[key]]. *)
Definition column (df : DataFrame) (key : string) : result (list json) :=
  match find_column key (columns df) with
  | Some c => Ok c
  | None => Err (KeyError key)
  end.

(** *** [Series.mean] *)

(** NumPy's pairwise summation of a float64 array, in the order in which
    its inner loop adds.  Up to 128 entries: the first eight entries start
    eight accumulators, every further full block of eight is added to them
    entry by entry, the accumulators are summed as
    [((r0+r1)+(r2+r3))+((r4+r5)+(r6+r7))] and the entries left over are
    added one by one; fewer than eight entries are added one by one,
    starting from [-0.0]. *)
Fixpoint add_blocks (r0 r1 r2 r3 r4 r5 r6 r7 : float) (a : list float) : float :=
  match a with
  | x0 :: x1 :: x2 :: x3 :: x4 :: x5 :: x6 :: x7 :: rest =>
      add_blocks (r0 + x0) (r1 + x1) (r2 + x2) (r3 + x3)
                 (r4 + x4) (r5 + x5) (r6 + x6) (r7 + x7) rest
  | _ =>
      fold_left add a (((r0 + r1) + (r2 + r3)) + ((r4 + r5) + (r6 + r7)))
  end%float.

Definition block_sum (a : list float) : float :=
  match a with
  | x0 :: x1 :: x2 :: x3 :: x4 :: x5 :: x6 :: x7 :: rest =>
      add_blocks x0 x1 x2 x3 x4 x5 x6 x7 rest
  | _ => fold_left add a neg_zero
  end.

(** More than 128 entries: the array is cut at [n2], half its length
    rounded down to a multiple of eight, and the sums of the two parts are
    added.  [fuel] bounds the depth of the cuts. *)
Fixpoint pairwise_sum_upto (fuel : nat) (a : list float) : float :=
  let n := List.length a in
  if (n <=? 128)%nat then block_sum a
  else
    match fuel with
    | O => block_sum a
    | S fuel' =>
        let n2 := (n / 2 - (n / 2) mod 8)%nat in
        (pairwise_sum_upto fuel' (firstn n2 a)
         + pairwise_sum_upto fuel' (skipn n2 a))%float
    end.

(** The length of the array is fuel enough ([pairwise_sum_cut]). *)
Definition pairwise_sum (a : list float) : float :=
  pairwise_sum_upto (List.length a) a.

(** The number of entries that are not NaN, as a float (exact below 2^53). *)
Definition count_not_nan (xs : list float) : float :=
  fold_left (fun n x => if is_nan x then n else (n + 1)%float) xs 0%float.

(** NaN entries count as 0 in the sum. *)
Definition fill_nan (xs : list float) : list float :=
  map (fun x => if is_nan x then 0%float else x) xs.

(** pandas' [nanmean] on a float64 column (without the optional bottleneck
    accelerator): the pairwise sum of the entries, NaN replaced by 0,
    divided by the number of entries that are not NaN; NaN when there is
    none. *)
Definition nanmean (xs : list float) : float :=
  let count := count_not_nan xs in
  if (0 <? count)%float then (pairwise_sum (fill_nan xs) / count)%float else nan.

(** pandas' [nanmean] on an object column: the entries are added from left
    to right, starting from the first. *)
Definition nanmean_object (xs : list float) : float :=
  let count := count_not_nan xs in
  let the_sum := match fill_nan xs with
                 | [] => 0%float
                 | x :: rest => fold_left add rest x
                 end in
  if (0 <? count)%float then (the_sum / count)%float else nan.

(** A cell as a float: [None] is NaN, a bool is 0 or 1, a number is itself. *)
Definition to_float (cell : json) : result float :=
  match cell with
  | JNum x => Ok x
  | JNull => Ok nan
  | JBool b => Ok (if b then 1%float else 0%float)
  | _ => Err TypeError
  end.

(** A column of numbers and [None] only is stored as float64; with any
    other cell the column keeps its Python objects. *)
Definition float64_cell (cell : json) : bool :=
  match cell with
  | JNum _ | JNull => true
  | _ => false
  end.

(** [series.mean()]. *)
Definition mean (series : list json) : result float :=
  xs <- comprehension to_float series ;;
  Ok (if forallb float64_cell series then nanmean xs else nanmean_object xs).

Definition get_average_elevation (w : World) (self : Elevation) (asynchronous : bool)
  : option (result float) :=
  let income_data_df := GeoDataFrame (locations self) in
  match (if negb asynchronous
         then Some (fst (get_google_data w self []))
         else get_google_data_async w self) with
  | None => None
  | Some fetched =>
      Some (elevation <- fetched ;;
            income_data_df <- setitem income_data_df "elevation" elevation ;;
            zs <- column income_data_df "z" ;;
            z_mean <- mean zs ;;
            es <- column income_data_df "elevation" ;;
            elevation_mean <- mean es ;;
            Ok (sub z_mean elevation_mean))
  end.

(** ** Vocabulary of the statements *)

Definition keep_chars (p : ascii -> bool) : string -> string :=
  fix keep (s : string) : string :=
    match s with
    | EmptyString => EmptyString
    | String a s' => if p a then String a (keep s') else keep s'
    end.

(** The characters of the text Python prints for a number: digits, sign,
    point, exponent mark and the letters of [inf] and [nan]. *)
Definition number_char (c : ascii) : bool :=
  existsb (Ascii.eqb c) (list_ascii_of_string "0123456789+-.einfa").

Definition number_text (s : string) : bool := all_chars number_char s.

Definition no_whitespace (s : string) : bool :=
  all_chars (fun c => negb (isspace c)) s.

(** The wire format in the words of the specification:
    ["{lat}, {lon}|{lat}, {lon}|..."] with all whitespace removed. *)
Definition wire_format (coords : list (string * string)) : string :=
  keep_chars (fun c => negb (isspace c))
    (join "|" (map (fun it => (fst it ++ ", " ++ snd it)%string) coords)).

(** The group of one point in the rendered chunk. *)
Definition rendered_point (it : string * string) : string :=
  (fst it ++ "," ++ snd it)%string.

Definition is_dict (item : json) : bool :=
  match item with
  | JObj _ => true
  | _ => false
  end.

(** The ["elevation"] field of a result element, [None] when it has none. *)
Definition elevation_field (item : json) : json :=
  match item with
  | JObj fields =>
      match dict_get fields "elevation" with
      | Some v => v
      | None => JNull
      end
  | _ => JNull
  end.

(** The elevations extracted from a response: [resp.json()] handed to
    [get_elevation_from_request]. *)
Definition response_elevations (resp : Response) : result (list json) :=
  payload <- json_body resp ;;
  get_elevation_from_request (PyJson payload).

(** What a response adds to the result of the sequential fetcher: its
    elevations on status 200, nothing on any other status. *)
Definition contribution (resp : Response) : list json :=
  if status_code resp =? 200 then
    match response_elevations resp with
    | Ok elevations => elevations
    | Err _ => []
    end
  else [].

(** The answers of the service to the requests for [c_strs], each made
    after the ones before it, starting from the requests in [log]. *)
Fixpoint exchanges (w : World) (self : Elevation) (c_strs : list string)
    (log : list string) : list (result Response) :=
  match c_strs with
  | [] => []
  | item :: rest =>
      service w log (make_uri self item)
      :: exchanges w self rest (log ++ [make_uri self item])
  end.

(** The request for a chunk of [n] points succeeds with the elevations
    [xs]: status 200 and a payload that gives one number per point. *)
Definition succeeds (resp : Response) (n : nat) (xs : list float) : Prop :=
  status_code resp = 200 /\
  response_elevations resp = Ok (map JNum xs) /\
  List.length xs = n.

(** The state of [gather] over [tasks] once the tasks at the positions in
    [finished] have finished: exactly these children hold their result, they
    are counted, and the outer future is set, to the results in task order,
    exactly when all have finished. *)
Definition gather_after (tasks : list (result json)) (finished : list nat)
    (g : Gather) : Prop :=
  (forall j,
      nth_error (children g) j =
      match nth_error tasks j with
      | None => None
      | Some r => Some (if in_dec Nat.eq_dec j finished
                        then Some (gathered r) else None)
      end) /\
  nfinished g = List.length finished /\
  outer g = if (List.length finished =? List.length tasks)%nat
            then Some (map gathered tasks) else None.

(** The elevation list that [get_average_elevation] assigns to the frame:
    [self.get_google_data() if not asynchronous else
    self.get_google_data_async()]; [None] when the call does not return. *)
Definition assembled (w : World) (self : Elevation) (asynchronous : bool)
  : option (result (list json)) :=
  if negb asynchronous
  then Some (fst (get_google_data w self []))
  else get_google_data_async w self.

(** *** Example worlds *)

(** The number of locations in a request: one more than its bars. *)
Fixpoint count_locations (uri : string) : nat :=
  match uri with
  | EmptyString => 1
  | String a rest =>
      if Ascii.eqb a "|" then S (count_locations rest) else count_locations rest
  end.

(** A payload with the same elevation for each location of the request. *)
Definition constant_payload (elevation : float) (uri : string) : json :=
  JObj [("results"%string,
         JArr (repeat (JObj [("elevation"%string, JNum elevation)])
                      (count_locations uri)))].

(** A service that answers every request with status 200 and
    [constant_payload], except the request number [bad] (counted from 0),
    which it answers with status 500. *)
Definition example_service (bad : option nat) (elevation : float)
    (log : list string) (uri : string) : result Response :=
  if match bad with
     | Some k => (List.length log =? k)%nat
     | None => false
     end
  then Ok {| status_code := 500; json_body := Err JSONDecodeError |}
  else Ok {| status_code := 200; json_body := Ok (constant_payload elevation uri) |}.

Definition example_async_reply (bad : option nat) (elevation : float)
    (i : nat) (url : string) : AsyncResponse :=
  if match bad with
     | Some k => (i =? k)%nat
     | None => false
     end
  then Replied 500 (Err JSONDecodeError)
  else Replied 200 (Ok (constant_payload elevation url)).

(** A world with the given batch size, a service that returns the elevation
    4 and fails on request [bad], and concurrent calls that finish in
    [order]. *)
Definition example_world (batch_size : option Z) (bad : option nat)
    (order : list nat) : World :=
  {| BATCH_SIZE := batch_size;
     service := example_service bad 4%float;
     async_reply := example_async_reply bad 4%float;
     finish_order := order |}.

(** [n] points with the reference elevation [z]. *)
Definition example_points (n : nat) (z : float) : Elevation :=
  init (repeat {| lat := "-21.8303712"; lon := "-49.127649"; z := z |} n) "KEY".

(** The group of one point as [coords_string] renders it, whatever the
    coordinates hold: the spaces of both are dropped. *)
Definition stripped_point (it : string * string) : string :=
  (remove " " (fst it) ++ "," ++ remove " " (snd it))%string.

(** * Properties *)

(** ** Lists and slices *)

Section ListFacts.
Context {A : Type}.

Lemma firstn_then_firstn_skipn (l : list A) (a d : nat) :
  firstn a l ++ firstn d (skipn a l) = firstn (a + d) l.
Proof.
  revert l; induction a as [|a IH]; intros l.
  - reflexivity.
  - destruct l as [|x l]; simpl.
    + now rewrite firstn_nil.
    + now rewrite IH.
Qed.

Lemma concat_consecutive_chunks (l : list A) (b k : nat) :
  List.concat (map (fun i => firstn b (skipn (i * b) l)) (seq 0 k)) = firstn (k * b) l.
Proof.
  induction k as [|k IH].
  - reflexivity.
  - rewrite seq_S, map_app, concat_app, IH. simpl.
    rewrite app_nil_r, firstn_then_firstn_skipn.
    f_equal; lia.
Qed.

Lemma nth_error_map_seq (f : nat -> A) (k i : nat) (x : A) :
  nth_error (map f (seq 0 k)) i = Some x -> (i < k)%nat /\ x = f i.
Proof.
  intros H.
  assert (Hi : (i < k)%nat).
  { assert (Hs : nth_error (map f (seq 0 k)) i <> None) by congruence.
    apply nth_error_Some in Hs. now rewrite length_map, length_seq in Hs. }
  split; [exact Hi|].
  rewrite nth_error_map, nth_error_seq in H.
  destruct (Nat.ltb_spec i k); [|lia].
  simpl in H. congruence.
Qed.

(** A slice with bounds inside the list is the usual prefix of a suffix. *)
Lemma slice_chunk (l : list A) (i : nat) (bs : Z) :
  1 <= bs -> Z.of_nat i * bs <= Z.of_nat (List.length l) ->
  slice l (0 + Z.of_nat i * bs)
        (Z.min (0 + Z.of_nat i * bs + bs) (Z.of_nat (List.length l)))
  = firstn (Z.to_nat bs) (skipn (i * Z.to_nat bs) l).
Proof.
  intros Hbs Hi. unfold slice, slice_bound.
  set (n := Z.of_nat (List.length l)).
  assert (Hlo : 0 <= Z.of_nat i * bs) by nia.
  destruct (Z.ltb_spec (0 + Z.of_nat i * bs) 0); [lia|].
  destruct (Z.ltb_spec (Z.min (0 + Z.of_nat i * bs + bs) n) 0); [lia|].
  replace (Z.to_nat (Z.min (0 + Z.of_nat i * bs) n)) with (i * Z.to_nat bs)%nat by nia.
  destruct (Z.le_gt_cases (Z.of_nat i * bs + bs) n) as [Hin|Hout].
  - f_equal. lia.
  - rewrite (firstn_all2 (n := Z.to_nat bs)) by (rewrite length_skipn; nia).
    apply firstn_all2. rewrite length_skipn. nia.
Qed.

End ListFacts.

(** ** The batcher *)

Lemma range_length_from_zero (n bs : Z) :
  1 <= bs -> 0 <= n ->
  let cnt := range_length 0 n bs in
  0 <= cnt /\ (cnt - 1) * bs < n \/ n = 0 /\ cnt = 0.
Proof.
  intros Hbs Hn. unfold range_length.
  destruct (Z.ltb_spec 0 bs); [|lia].
  destruct (Z.ltb_spec 0 n); [left|right; lia].
  pose proof (Z.mul_div_le (n - 0 - 1) bs ltac:(lia)).
  pose proof (Z.div_pos (n - 0 - 1) bs ltac:(lia) ltac:(lia)).
  split; nia.
Qed.

Lemma range_length_covers (n bs : Z) :
  1 <= bs -> 0 <= n -> n <= range_length 0 n bs * bs.
Proof.
  intros Hbs Hn. unfold range_length.
  destruct (Z.ltb_spec 0 bs); [|lia].
  destruct (Z.ltb_spec 0 n); [|lia].
  pose proof (Z.mul_succ_div_gt (n - 0 - 1) bs ltac:(lia)).
  nia.
Qed.

Lemma batch_slices_chunks {A : Type} (coords : list A) (bs : Z) :
  1 <= bs ->
  batch_slices coords bs =
  Ok (map (fun i => firstn (Z.to_nat bs) (skipn (i * Z.to_nat bs) coords))
          (seq 0 (Z.to_nat (range_length 0 (Z.of_nat (List.length coords)) bs)))).
Proof.
  intros Hbs. unfold batch_slices, range.
  destruct (Z.eqb_spec bs 0); [lia|]. cbn [bind].
  f_equal. rewrite map_map. apply map_ext_in. intros i Hi.
  apply in_seq in Hi.
  apply slice_chunk; [exact Hbs|].
  destruct (range_length_from_zero (Z.of_nat (List.length coords)) bs Hbs ltac:(lia))
    as [[Hc Hlt]|[_ Hz]]; [nia|lia].
Qed.

Lemma batch_slices_partition {A : Type} (coords : list A) (batch_size : Z) :
  1 <= batch_size ->
  exists chunks,
    batch_slices coords batch_size = Ok chunks /\
    List.concat chunks = coords /\
    forall i chunk, nth_error chunks i = Some chunk ->
      if (S i <? List.length chunks)%nat
      then Z.of_nat (List.length chunk) = batch_size
      else 1 <= Z.of_nat (List.length chunk) <= batch_size.
Proof.
  intros Hbs.
  pose proof (batch_slices_chunks coords batch_size Hbs) as Hb.
  set (n := Z.of_nat (List.length coords)) in *.
  set (cnt := range_length 0 n batch_size) in *.
  pose proof (range_length_covers n batch_size Hbs ltac:(lia)) as Hcov.
  fold cnt in Hcov.
  pose proof (range_length_from_zero n batch_size Hbs ltac:(lia)) as Hcnt.
  fold cnt in Hcnt. cbv zeta in Hcnt.
  eexists. split; [exact Hb|]. split.
  { rewrite concat_consecutive_chunks. apply firstn_all2. nia. }
  intros i chunk Hnth.
  apply nth_error_map_seq in Hnth. destruct Hnth as [Hi ->].
  rewrite length_map, length_seq, length_firstn, length_skipn.
  destruct (Nat.ltb_spec (S i) (Z.to_nat cnt)); nia.
Qed.

(** C2. For every point sequence and every batch size of at least 1, the
    chunks of the batcher, concatenated in the order produced, are the
    original sequence; every chunk but the last has exactly [batch_size]
    points and the last has between 1 and [batch_size]; and
    [batch_coords_to_str] yields the renderings of these chunks. *)
Theorem batcher_chunks_partition (self : Elevation) (batch_size : Z) :
  1 <= batch_size ->
  exists chunks,
    create_batch_for_polyline self batch_size = Ok chunks /\
    batch_coords_to_str self batch_size = Ok (map coords_string chunks) /\
    List.concat chunks = coords_list self /\
    forall i chunk, nth_error chunks i = Some chunk ->
      if (S i <? List.length chunks)%nat
      then Z.of_nat (List.length chunk) = batch_size
      else 1 <= Z.of_nat (List.length chunk) <= batch_size.
Proof.
  intros Hbs.
  destruct (batch_slices_partition (coords_list self) batch_size Hbs)
    as (chunks & Hb & Hcat & Hsize).
  exists chunks. split; [exact Hb|]. split; [|split; assumption].
  unfold batch_coords_to_str. now rewrite Hb.
Qed.

(** A run of C2: five points in batches of two. *)
Lemma batcher_chunks_partition_witness :
  1 <= 2 /\
  exists chunks,
    create_batch_for_polyline
      (init (map (fun t => mkPoint t t 0%float) ["1"; "2"; "3"; "4"; "5"]%string) "k") 2
    = Ok chunks /\ List.length chunks = 3%nat.
Proof.
  split; [lia|].
  destruct (batcher_chunks_partition
              (init (map (fun t => mkPoint t t 0%float) ["1"; "2"; "3"; "4"; "5"]%string) "k")
              2 ltac:(lia)) as (chunks & Hc & _).
  exists chunks. split; [exact Hc|].
  vm_compute in Hc. injection Hc as <-. reflexivity.
Defined.

(** ** Rendering a chunk *)

Lemma remove_keep_chars (c : ascii) (s : string) :
  remove c s = keep_chars (fun a => negb (Ascii.eqb a c)) s.
Proof.
  induction s as [|a s IH]; simpl; [reflexivity|].
  rewrite IH. now destruct (Ascii.eqb a c).
Qed.

Lemma keep_chars_app (p : ascii -> bool) (s t : string) :
  keep_chars p (s ++ t) = (keep_chars p s ++ keep_chars p t)%string.
Proof.
  induction s as [|a s IH]; simpl; [reflexivity|].
  rewrite IH. now destruct (p a).
Qed.

Lemma keep_chars_all (p : ascii -> bool) (s : string) :
  all_chars p s = true -> keep_chars p s = s.
Proof.
  induction s as [|a s IH]; simpl; [reflexivity|].
  intros H. apply andb_prop in H. destruct H as [Ha Hs].
  now rewrite Ha, IH.
Qed.

Lemma all_chars_app (p : ascii -> bool) (s t : string) :
  all_chars p (s ++ t) = all_chars p s && all_chars p t.
Proof.
  induction s as [|a s IH]; simpl; [reflexivity|].
  now rewrite IH, andb_assoc.
Qed.

Lemma all_chars_weaken (p q : ascii -> bool) (s : string) :
  (forall c, p c = true -> q c = true) ->
  all_chars p s = true -> all_chars q s = true.
Proof.
  intros Hpq. induction s as [|a s IH]; simpl; [reflexivity|].
  intros H. apply andb_prop in H. destruct H as [Ha Hs].
  now rewrite (Hpq a Ha), IH.
Qed.

Lemma all_chars_join (p : ascii -> bool) (sep : string) (parts : list string) :
  all_chars p sep = true ->
  Forall (fun g => all_chars p g = true) parts ->
  all_chars p (join sep parts) = true.
Proof.
  intros Hsep Hparts.
  induction Hparts as [|g [|g' rest] Hg Hrest IH]; [reflexivity|exact Hg|].
  change (join sep (g :: g' :: rest)) with (g ++ sep ++ join sep (g' :: rest))%string.
  now rewrite !all_chars_app, Hg, Hsep, IH.
Qed.

(** A character of a number is neither a space, nor a bar, nor whitespace. *)
Lemma number_char_plain (c : ascii) :
  number_char c = true ->
  Ascii.eqb c " " = false /\ Ascii.eqb c "|" = false /\ isspace c = false.
Proof.
  destruct c as [[] [] [] [] [] [] [] []]; vm_compute; intros H;
    first [discriminate H | repeat split].
Qed.

Lemma split_without_separator (c : ascii) (g : string) :
  all_chars (fun a => negb (Ascii.eqb a c)) g = true -> split c g = [g].
Proof.
  induction g as [|a g IH]; simpl; [reflexivity|].
  intros H. apply andb_prop in H. destruct H as [Ha Hg].
  apply negb_true_iff in Ha. now rewrite Ha, (IH Hg).
Qed.

Lemma split_first_group (c : ascii) (g rest : string) :
  all_chars (fun a => negb (Ascii.eqb a c)) g = true ->
  split c (g ++ String c rest) = g :: split c rest.
Proof.
  induction g as [|a g IH]; simpl.
  - now rewrite Ascii.eqb_refl.
  - intros H. apply andb_prop in H. destruct H as [Ha Hg].
    apply negb_true_iff in Ha. now rewrite Ha, (IH Hg).
Qed.

Lemma split_join (c : ascii) (groups : list string) :
  Forall (fun g => all_chars (fun a => negb (Ascii.eqb a c)) g = true) groups ->
  groups <> [] ->
  split c (join (String c EmptyString) groups) = groups.
Proof.
  intros Hall. induction Hall as [|g [|g' rest] Hg Hrest IH]; intros Hne.
  - contradiction.
  - now apply split_without_separator.
  - change (join (String c EmptyString) (g :: g' :: rest))
      with (g ++ String c (join (String c EmptyString) (g' :: rest)))%string.
    rewrite (split_first_group c g _ Hg), IH; [reflexivity|discriminate].
Qed.

(** What is kept of the joined ["{lat}, {lon}"] groups when the characters
    that satisfy [p] are kept, for a [p] that holds of the characters of
    numbers, of the comma and of the bar, and fails on the space. *)
Lemma keep_chars_rendered (p : ascii -> bool) (l : list (string * string)) :
  (forall c, number_char c = true -> p c = true) ->
  p ","%char = true -> p "|"%char = true -> p " "%char = false ->
  Forall (fun it => number_text (fst it) = true /\ number_text (snd it) = true) l ->
  keep_chars p (join "|" (map (fun it => (fst it ++ ", " ++ snd it)%string) l))
  = join "|" (map rendered_point l).
Proof.
  intros Hnum Hcomma Hbar Hspace Hl.
  assert (Hone : forall it,
             number_text (fst it) = true /\ number_text (snd it) = true ->
             keep_chars p (fst it ++ ", " ++ snd it) = rendered_point it).
  { intros it [Ha Hb]. unfold rendered_point.
    rewrite !keep_chars_app.
    rewrite (keep_chars_all p (fst it)) by (eapply all_chars_weaken; eauto).
    rewrite (keep_chars_all p (snd it)) by (eapply all_chars_weaken; eauto).
    simpl. now rewrite Hcomma, Hspace. }
  induction Hl as [|it [|it' rest] Hit Hrest IH]; [reflexivity|now apply Hone|].
  change (keep_chars p ((fst it ++ ", " ++ snd it)
            ++ "|" ++ join "|" (map (fun it => (fst it ++ ", " ++ snd it)%string) (it' :: rest)))
          = (rendered_point it ++ "|" ++ join "|" (map rendered_point (it' :: rest)))%string).
  rewrite keep_chars_app, (Hone it Hit).
  rewrite (keep_chars_app p "|"), IH. simpl. now rewrite Hbar.
Qed.

Lemma rendered_point_chars (p : ascii -> bool) (l : list (string * string)) :
  (forall c, number_char c = true -> p c = true) -> p ","%char = true ->
  Forall (fun it => number_text (fst it) = true /\ number_text (snd it) = true) l ->
  Forall (fun g => all_chars p g = true) (map rendered_point l).
Proof.
  intros Hnum Hcomma Hl. apply Forall_map.
  eapply Forall_impl; [|exact Hl]. intros it [Ha Hb]. unfold rendered_point.
  rewrite !all_chars_app.
  rewrite (all_chars_weaken _ p _ Hnum Ha), (all_chars_weaken _ p _ Hnum Hb).
  simpl. now rewrite Hcomma.
Qed.

(** C7. A chunk of points whose coordinates print as numbers is rendered as
    the specified wire format: ["{lat}, {lon}"] groups joined by ["|"] with
    all whitespace removed.  Splitting the rendering at ["|"] gives exactly
    one group per point, in point order, the group of a point being
    ["{lat},{lon}"]; and the rendering contains no whitespace character. *)
Theorem coords_string_wire_format (coords : list (string * string)) :
  Forall (fun it => number_text (fst it) = true /\ number_text (snd it) = true) coords ->
  coords_string coords = wire_format coords /\
  coords_string coords = join "|" (map rendered_point coords) /\
  (coords <> [] -> split "|" (coords_string coords) = map rendered_point coords) /\
  no_whitespace (coords_string coords) = true.
Proof.
  intros numbers.
  assert (Hr : coords_string coords = join "|" (map rendered_point coords)).
  { unfold coords_string. rewrite remove_keep_chars.
    apply keep_chars_rendered; try reflexivity; [|exact numbers].
    intros c Hc. now rewrite (proj1 (number_char_plain c Hc)). }
  assert (Hw : wire_format coords = join "|" (map rendered_point coords)).
  { unfold wire_format.
    apply keep_chars_rendered; try reflexivity; [|exact numbers].
    intros c Hc. now rewrite (proj2 (proj2 (number_char_plain c Hc))). }
  split; [now rewrite Hr, Hw|].
  split; [exact Hr|].
  rewrite Hr. split.
  - intros Hne. apply (split_join "|"%char).
    + apply rendered_point_chars; [|reflexivity|exact numbers].
      intros c Hc. now rewrite (proj1 (proj2 (number_char_plain c Hc))).
    + destruct coords; [contradiction|discriminate].
  - apply all_chars_join; [reflexivity|].
    apply rendered_point_chars; [|reflexivity|exact numbers].
    intros c Hc. now rewrite (proj2 (proj2 (number_char_plain c Hc))).
Qed.

(** A run of C7 on the three points of the docstring of [coords_string]. *)
Lemma coords_string_wire_format_witness :
  Forall (fun it => number_text (fst it) = true /\ number_text (snd it) = true)
    [("-21.8303712", "-49.127649"); ("-21.8302281", "-49.1275669");
     ("-21.8300812", "-49.1274859")]%string /\
  coords_string [("-21.8303712", "-49.127649"); ("-21.8302281", "-49.1275669");
                 ("-21.8300812", "-49.1274859")]%string
  = "-21.8303712,-49.127649|-21.8302281,-49.1275669|-21.8300812,-49.1274859"%string.
Proof.
  assert (Hn : Forall (fun it => number_text (fst it) = true /\ number_text (snd it) = true)
                 [("-21.8303712", "-49.127649"); ("-21.8302281", "-49.1275669");
                  ("-21.8300812", "-49.1274859")]%string)
    by (repeat constructor).
  split; [exact Hn|].
  exact (proj1 (proj2 (coords_string_wire_format _ Hn))).
Defined.

(** ** Extracting the elevations of a payload *)

Lemma comprehension_get_elevation (items : list json) :
  Forall (fun item => is_dict item = true) items ->
  comprehension (fun item => get item "elevation") items
  = Ok (map elevation_field items).
Proof.
  induction 1 as [|item items Hitem _ IH]; [reflexivity|].
  destruct item; try discriminate Hitem.
  cbn [comprehension get]. rewrite IH. reflexivity.
Qed.

(** C9, as amended. For every payload whose ["results"] field is a list of
    objects, [get_elevation_from_request] returns the list of their
    ["elevation"] fields ([None] where the field is absent): same length,
    same order. *)
Theorem get_elevation_from_request_results
    (fields : list (string * json)) (items : list json) :
  dict_get fields "results" = Some (JArr items) ->
  Forall (fun item => is_dict item = true) items ->
  exists elevations,
    get_elevation_from_request (PyJson (JObj fields)) = Ok elevations /\
    List.length elevations = List.length items /\
    forall i item, nth_error items i = Some item ->
      nth_error elevations i = Some (elevation_field item).
Proof.
  intros Hres Hobj. exists (map elevation_field items).
  unfold get_elevation_from_request. cbn [getitem]. rewrite Hres. cbn [bind iter].
  split; [now apply comprehension_get_elevation|].
  split; [apply length_map|].
  intros i item Hi. now rewrite nth_error_map, Hi.
Qed.

(** A run of C9: one result with an elevation, one without. *)
Lemma get_elevation_from_request_results_witness :
  exists elevations,
    get_elevation_from_request
      (PyJson (JObj [("results"%string,
                      JArr [JObj [("elevation"%string, JNum 4%float)]; JObj []])]))
    = Ok elevations /\ elevations = [JNum 4%float; JNull].
Proof.
  destruct (get_elevation_from_request_results
              [("results"%string,
                JArr [JObj [("elevation"%string, JNum 4%float)]; JObj []])]
              [JObj [("elevation"%string, JNum 4%float)]; JObj []]
              eq_refl ltac:(repeat constructor)) as (elevations & He & _).
  exists elevations. split; [exact He|].
  vm_compute in He. now injection He.
Defined.

(** C9 as stated fails: the payload [{"results": [1]}] has a list as its
    ["results"] field, and the call raises [AttributeError] instead of
    returning a list of one element. *)
Lemma get_elevation_from_request_number_item :
  getitem (PyJson (JObj [("results"%string, JArr [JNum 1%float])])) "results"
  = Ok (JArr [JNum 1%float]) /\
  get_elevation_from_request (PyJson (JObj [("results"%string, JArr [JNum 1%float])]))
  = Err AttributeError /\
  ~ exists elevations,
      get_elevation_from_request (PyJson (JObj [("results"%string, JArr [JNum 1%float])]))
      = Ok elevations /\ List.length elevations = 1%nat.
Proof.
  split; [reflexivity|]. split; [reflexivity|].
  intros (elevations & He & _). discriminate He.
Qed.

(** ** The sequential fetcher *)

Lemma get_google_data_loop_step (w : World) (self : Elevation)
    (item : string) (rest : list string) (acc : list json) (log : list string)
    (resp : Response) :
  service w log (make_uri self item) = Ok resp ->
  (status_code resp = 200 -> exists es, response_elevations resp = Ok es) ->
  get_google_data_loop w self (item :: rest) acc log
  = get_google_data_loop w self rest (acc ++ contribution resp)
      (log ++ [make_uri self item]).
Proof.
  intros Hs Hok.
  cbn [get_google_data_loop]. unfold net_bind at 1, make_request, http_get.
  rewrite Hs. unfold contribution.
  destruct (Z.eqb_spec (status_code resp) 200) as [H200|Hnot].
  - destruct (Hok H200) as (es & Hes).
    unfold net_bind, net_lift. fold (response_elevations resp).
    now rewrite Hes.
  - now rewrite app_nil_r.
Qed.

Lemma get_google_data_loop_run (w : World) (self : Elevation)
    (c_strs : list string) (resps : list Response) :
  forall (acc : list json) (log : list string),
  exchanges w self c_strs log = map Ok resps ->
  Forall (fun resp => status_code resp = 200 ->
                      exists es, response_elevations resp = Ok es) resps ->
  get_google_data_loop w self c_strs acc log
  = (Ok (acc ++ List.concat (map contribution resps)),
     log ++ map (make_uri self) c_strs).
Proof.
  revert resps. induction c_strs as [|item rest IH]; intros resps acc log Hex Hall.
  - destruct resps; [|discriminate Hex]. cbn. now rewrite !app_nil_r.
  - destruct resps as [|resp resps]; [discriminate Hex|].
    cbn [exchanges map] in Hex. injection Hex as Hs Hrest.
    inversion Hall as [|? ? Hresp Hresps]; subst.
    rewrite (get_google_data_loop_step w self item rest acc log resp Hs Hresp).
    rewrite (IH resps _ _ Hrest Hresps).
    cbn [map List.concat]. now rewrite <- !app_assoc.
Qed.

(** C6. In sequential mode, for every ordered list of rendered chunks whose
    requests are answered and whose 200 responses decode: the requests are
    made one after the other in list order (each one sees the ones before
    it as already made), a response with another status adds nothing and
    raises nothing, and the value returned is the concatenation, in chunk
    order, of the elevations extracted from the 200 responses.  The same
    holds of [get_google_data] on the chunks of [make_coords_strings_list]. *)
Theorem get_google_data_sequential (w : World) (self : Elevation)
    (c_strs : list string) (resps : list Response) :
  exchanges w self c_strs [] = map Ok resps ->
  Forall (fun resp => status_code resp = 200 ->
                      exists es, response_elevations resp = Ok es) resps ->
  get_google_data_loop w self c_strs [] []
  = (Ok (List.concat (map contribution resps)), map (make_uri self) c_strs) /\
  Forall (fun resp => status_code resp <> 200 -> contribution resp = []) resps /\
  (make_coords_strings_list w self = Ok c_strs ->
   get_google_data w self []
   = (Ok (List.concat (map contribution resps)), map (make_uri self) c_strs)).
Proof.
  intros Hex Hall.
  pose proof (get_google_data_loop_run w self c_strs resps [] [] Hex Hall) as Hrun.
  cbn [app] in Hrun.
  split; [exact Hrun|]. split.
  - apply Forall_forall. intros resp _ Hnot. unfold contribution.
    now destruct (Z.eqb_spec (status_code resp) 200).
  - intros Hc. unfold get_google_data, net_bind, net_lift. rewrite Hc. exact Hrun.
Qed.

Lemma get_google_data_sequential_premises :
  let w := example_world (Some 1) (Some 1%nat) [] in
  let self := example_points 3 10%float in
  let c_strs := ["-21.8303712,-49.127649"; "-21.8303712,-49.127649";
                 "-21.8303712,-49.127649"]%string in
  let resps := [mkResponse 200 (Ok (constant_payload 4%float "x"));
                mkResponse 500 (Err JSONDecodeError);
                mkResponse 200 (Ok (constant_payload 4%float "x"))] in
  exchanges w self c_strs [] = map Ok resps /\
  Forall (fun resp => status_code resp = 200 ->
                      exists es, response_elevations resp = Ok es) resps.
Proof.
  split; [reflexivity|].
  repeat constructor; cbn; intros H; try discriminate H; eexists; reflexivity.
Qed.

(** A run of C6: three chunks, the second answered with status 500; the
    result holds the elevations of the first and the third. *)
Lemma get_google_data_sequential_witness :
  get_google_data_loop (example_world (Some 1) (Some 1%nat) [])
    (example_points 3 10%float)
    ["-21.8303712,-49.127649"; "-21.8303712,-49.127649"; "-21.8303712,-49.127649"]%string
    [] []
  = (Ok [JNum 4%float; JNum 4%float],
     map (make_uri (example_points 3 10%float))
       ["-21.8303712,-49.127649"; "-21.8303712,-49.127649";
        "-21.8303712,-49.127649"]%string).
Proof.
  exact (proj1 (get_google_data_sequential _ _ _ _
                  (proj1 get_google_data_sequential_premises)
                  (proj2 get_google_data_sequential_premises))).
Defined.

(** ** Batch sizes and empty inputs *)

Lemma batch_slices_zero {A : Type} (coords : list A) :
  batch_slices coords 0 = Err ValueError_range_step.
Proof. reflexivity. Qed.

Lemma batch_slices_negative {A : Type} (coords : list A) (bs : Z) :
  bs < 0 -> batch_slices coords bs = Ok [].
Proof.
  intros Hbs. unfold batch_slices, range, range_length.
  destruct (Z.eqb_spec bs 0); [lia|].
  destruct (Z.ltb_spec 0 bs); [lia|].
  destruct (Z.ltb_spec (Z.of_nat (List.length coords)) 0); [lia|].
  reflexivity.
Qed.

Lemma batch_slices_nil {A : Type} (bs : Z) :
  bs <> 0 -> batch_slices (@nil A) bs = Ok [].
Proof.
  intros Hbs. unfold batch_slices, range, range_length.
  destruct (Z.eqb_spec bs 0); [contradiction|].
  cbn [List.length Z.of_nat Z.ltb Z.compare].
  now destruct (0 <? bs).
Qed.

Lemma gather_no_task (order : list nat) : gather [] order = Some [].
Proof.
  unfold gather. cbn [List.length repeat Nat.eqb].
  induction order as [|i order IH]; [reflexivity|].
  cbn [fold_left]. unfold finish at 2. cbn [children].
  destruct i; exact IH.
Qed.

Lemma get_google_data_no_chunk (w : World) (self : Elevation) :
  make_coords_strings_list w self = Ok [] ->
  get_google_data w self [] = (Ok [], []) /\
  get_google_data_async w self = Some (Ok []).
Proof.
  intros Hc. split.
  - unfold get_google_data, net_bind, net_lift. now rewrite Hc.
  - unfold get_google_data_async, generate_urls. rewrite Hc. cbn [bind map].
    unfold fetch_data. cbn. now rewrite gather_no_task.
Qed.

Lemma get_google_data_raises (w : World) (self : Elevation) (e : exn) :
  make_coords_strings_list w self = Err e ->
  get_google_data w self [] = (Err e, []) /\
  get_google_data_async w self = Some (Err e).
Proof.
  intros Hc. split.
  - unfold get_google_data, net_bind, net_lift. now rewrite Hc.
  - unfold get_google_data_async, generate_urls. now rewrite Hc.
Qed.

(** C10. For an empty point sequence and every batch size of at least 1 the
    batcher yields no chunk, the sequential fetcher makes no request and
    the elevation list is empty. *)
Theorem empty_point_sequence (w : World) (self : Elevation) (batch_size : Z) :
  locations self = [] -> 1 <= batch_size ->
  create_batch_for_polyline self batch_size = Ok [] /\
  batch_coords_to_str self batch_size = Ok [] /\
  (environ_BATCH_SIZE w 300 = batch_size ->
   get_google_data w self [] = (Ok [], [])).
Proof.
  intros Hloc Hbs.
  assert (Hb : batch_slices (coords_list self) batch_size = Ok []).
  { unfold coords_list. rewrite Hloc. apply batch_slices_nil. lia. }
  split; [exact Hb|].
  assert (Hs : batch_coords_to_str self batch_size = Ok []).
  { unfold batch_coords_to_str. now rewrite Hb. }
  split; [exact Hs|].
  intros Henv. apply get_google_data_no_chunk.
  unfold make_coords_strings_list. now rewrite Henv.
Qed.

(** A run of C10 with the default batch size. *)
Lemma empty_point_sequence_witness :
  get_google_data (example_world None None []) (example_points 0 10%float) []
  = (Ok [], []).
Proof.
  exact (proj2 (proj2 (empty_point_sequence (example_world None None [])
                         (example_points 0 10%float) 300 eq_refl ltac:(lia)))
           eq_refl).
Defined.

(** The frame refuses a column whose length is not the length of its
    index, once it has rows. *)
Lemma setitem_length_mismatch (locations : list Point) (key : string)
    (values : list json) :
  locations <> [] ->
  List.length values <> List.length locations ->
  setitem (GeoDataFrame locations) key values
  = Err (ValueError_length (List.length values) (List.length locations)).
Proof.
  intros Hne Hlen. destruct locations as [|p ps]; [contradiction|].
  unfold setitem. cbn [GeoDataFrame index].
  destruct (Nat.eqb_spec (List.length (p :: ps)) 0); [discriminate|].
  destruct (Nat.eqb_spec (List.length values) (List.length (p :: ps)));
    [contradiction|reflexivity].
Qed.

Lemma get_average_elevation_assembled (w : World) (self : Elevation)
    (asynchronous : bool) (fetched : result (list json)) :
  assembled w self asynchronous = Some fetched ->
  get_average_elevation w self asynchronous
  = Some (elevation <- fetched ;;
          income_data_df <- setitem (GeoDataFrame (locations self)) "elevation" elevation ;;
          zs <- column income_data_df "z" ;;
          z_mean <- mean zs ;;
          es <- column income_data_df "elevation" ;;
          elevation_mean <- mean es ;;
          Ok (sub z_mean elevation_mean)).
Proof.
  unfold assembled, get_average_elevation. now intros ->.
Qed.

(** Without points there is no chunk, whatever the batch size. *)
Lemma assembled_no_point (w : World) (self : Elevation) (asynchronous : bool)
    (elevation : list json) :
  locations self = [] ->
  assembled w self asynchronous = Some (Ok elevation) -> elevation = [].
Proof.
  intros Hloc Ha.
  assert (Hc : make_coords_strings_list w self = Ok [] \/
               make_coords_strings_list w self = Err ValueError_range_step).
  { unfold make_coords_strings_list, batch_coords_to_str, coords_list.
    rewrite Hloc. cbn [map].
    destruct (Z.eq_dec (environ_BATCH_SIZE w 300) 0) as [->|Hnz].
    - right. reflexivity.
    - left. now rewrite (batch_slices_nil _ Hnz). }
  unfold assembled in Ha.
  destruct Hc as [Hc|Hc].
  - destruct (get_google_data_no_chunk w self Hc) as [Hs Hasync].
    destruct asynchronous; cbn [negb] in Ha.
    + rewrite Hasync in Ha. congruence.
    + rewrite Hs in Ha. cbn [fst] in Ha. congruence.
  - destruct (get_google_data_raises w self _ Hc) as [Hs Hasync].
    destruct asynchronous; cbn [negb] in Ha.
    + rewrite Hasync in Ha. congruence.
    + rewrite Hs in Ha. cbn [fst] in Ha. congruence.
Qed.

(** C5. Whenever the elevation list that was assembled, in either mode, has
    not as many entries as there are points, [get_average_elevation] raises
    the [ValueError] of the column assignment, which names the number of
    values obtained and the number of points expected, and returns no
    number. *)
Theorem get_average_elevation_length_mismatch (w : World) (self : Elevation)
    (asynchronous : bool) (elevation : list json) :
  assembled w self asynchronous = Some (Ok elevation) ->
  List.length elevation <> List.length (locations self) ->
  get_average_elevation w self asynchronous
  = Some (Err (ValueError_length (List.length elevation)
                                 (List.length (locations self)))).
Proof.
  intros Ha Hlen.
  rewrite (get_average_elevation_assembled w self asynchronous _ Ha).
  cbn [bind].
  assert (Hne : locations self <> []).
  { intros Hloc. rewrite (assembled_no_point w self asynchronous _ Hloc Ha) in Hlen.
    rewrite Hloc in Hlen. now apply Hlen. }
  now rewrite (setitem_length_mismatch _ _ _ Hne Hlen).
Qed.

(** A run of C5: five chunks of one point, the third answered with status
    500; four values for five points. *)
Lemma get_average_elevation_length_mismatch_witness :
  assembled (example_world (Some 1) (Some 2%nat) []) (example_points 5 10%float) false
  = Some (Ok (repeat (JNum 4%float) 4)) /\
  get_average_elevation (example_world (Some 1) (Some 2%nat) [])
    (example_points 5 10%float) false
  = Some (Err (ValueError_length 4 5)).
Proof.
  assert (Ha : assembled (example_world (Some 1) (Some 2%nat) [])
                 (example_points 5 10%float) false
               = Some (Ok (repeat (JNum 4%float) 4))) by (vm_compute; reflexivity).
  split; [exact Ha|].
  exact (get_average_elevation_length_mismatch _ _ _ _ Ha ltac:(cbn; lia)).
Defined.

(** C8, as amended. A batch size of 0 makes the pipeline raise, before any
    request, the [ValueError] of [range]; a negative batch size raises
    nothing in the batcher, which yields no chunk: no request is made, the
    elevation list is empty, and [get_average_elevation] then raises the
    length-mismatch error as soon as there is a point; a batch size of at
    least 1 is accepted. *)
Theorem batch_size_not_positive (w : World) (self : Elevation) :
  (environ_BATCH_SIZE w 300 = 0 ->
   get_google_data w self [] = (Err ValueError_range_step, []) /\
   forall asynchronous,
     get_average_elevation w self asynchronous = Some (Err ValueError_range_step)) /\
  (environ_BATCH_SIZE w 300 < 0 ->
   make_coords_strings_list w self = Ok [] /\
   get_google_data w self [] = (Ok [], []) /\
   forall asynchronous,
     assembled w self asynchronous = Some (Ok []) /\
     (locations self <> [] ->
      get_average_elevation w self asynchronous
      = Some (Err (ValueError_length 0 (List.length (locations self)))))) /\
  (1 <= environ_BATCH_SIZE w 300 ->
   exists c_strs, make_coords_strings_list w self = Ok c_strs).
Proof.
  split; [|split].
  - intros Hz.
    assert (Hc : make_coords_strings_list w self = Err ValueError_range_step).
    { unfold make_coords_strings_list, batch_coords_to_str. now rewrite Hz. }
    destruct (get_google_data_raises w self _ Hc) as [Hs Hasync].
    split; [exact Hs|].
    intros asynchronous.
    apply (get_average_elevation_assembled w self asynchronous (Err ValueError_range_step)).
    unfold assembled. destruct asynchronous; cbn [negb]; [exact Hasync|now rewrite Hs].
  - intros Hneg.
    assert (Hc : make_coords_strings_list w self = Ok []).
    { unfold make_coords_strings_list, batch_coords_to_str.
      now rewrite (batch_slices_negative _ _ Hneg). }
    destruct (get_google_data_no_chunk w self Hc) as [Hs Hasync].
    split; [exact Hc|]. split; [exact Hs|].
    intros asynchronous.
    assert (Ha : assembled w self asynchronous = Some (Ok [])).
    { unfold assembled. destruct asynchronous; cbn [negb]; [exact Hasync|now rewrite Hs]. }
    split; [exact Ha|].
    intros Hne.
    rewrite (get_average_elevation_assembled w self asynchronous _ Ha). cbn [bind].
    rewrite (setitem_length_mismatch _ _ [] Hne); [reflexivity|].
    destruct (locations self); [contradiction|discriminate].
  - intros Hpos. unfold make_coords_strings_list, batch_coords_to_str.
    rewrite (batch_slices_chunks _ _ Hpos). eexists. reflexivity.
Qed.

(** A run of C8 for the batch sizes 0 and -2. *)
Lemma batch_size_not_positive_witness :
  get_google_data (example_world (Some 0) None []) (example_points 3 10%float) []
  = (Err ValueError_range_step, []) /\
  get_google_data (example_world (Some (-2)) None []) (example_points 3 10%float) []
  = (Ok [], []).
Proof.
  split.
  - exact (proj1 (proj1 (batch_size_not_positive (example_world (Some 0) None [])
                           (example_points 3 10%float)) eq_refl)).
  - exact (proj1 (proj2 (proj1 (proj2 (batch_size_not_positive
                                         (example_world (Some (-2)) None [])
                                         (example_points 3 10%float)))
                           ltac:(cbn; lia)))).
Defined.

(** C8 as stated fails: with the batch size -1 and three points nothing is
    raised; the batcher yields no chunk and the fetcher returns the empty
    list. *)
Lemma negative_batch_size_is_not_refused :
  batch_coords_to_str (example_points 3 10%float) (-1) = Ok [] /\
  get_google_data (example_world (Some (-1)) None []) (example_points 3 10%float) []
  = (Ok [], []) /\
  ~ exists e,
      fst (get_google_data (example_world (Some (-1)) None [])
             (example_points 3 10%float) []) = Err e.
Proof.
  split; [reflexivity|]. split; [reflexivity|].
  intros (e & He). discriminate He.
Qed.

(** ** The aggregate when every chunk succeeds *)

Lemma comprehension_to_float (xs : list float) :
  comprehension to_float (map JNum xs) = Ok xs.
Proof.
  induction xs as [|x xs IH]; [reflexivity|].
  cbn [map comprehension to_float]. now rewrite IH.
Qed.

Lemma mean_numbers (xs : list float) :
  mean (map JNum xs) = Ok (nanmean xs).
Proof.
  unfold mean. rewrite comprehension_to_float. cbn [bind].
  replace (forallb float64_cell (map JNum xs)) with true; [reflexivity|].
  symmetry. apply forallb_forall. intros cell Hin.
  apply in_map_iff in Hin. now destruct Hin as (x & <- & _).
Qed.

Lemma put_column_elevation (a b c values : list json) :
  put_column "elevation" values
    [("lat"%string, a); ("lon"%string, b); ("z"%string, c)]
  = [("lat"%string, a); ("lon"%string, b); ("z"%string, c);
     ("elevation"%string, values)].
Proof. reflexivity. Qed.

(** The frame of a non-empty point sequence, given one number per point,
    yields the difference of the two means. *)
Lemma aggregate_of_aligned_columns (locations : list Point)
    (xs : list float) :
  locations <> [] ->
  List.length xs = List.length locations ->
  (income_data_df <- setitem (GeoDataFrame locations) "elevation" (map JNum xs) ;;
   zs <- column income_data_df "z" ;;
   z_mean <- mean zs ;;
   es <- column income_data_df "elevation" ;;
   elevation_mean <- mean es ;;
   Ok (sub z_mean elevation_mean))
  = Ok (sub (nanmean (map z locations)) (nanmean xs)).
Proof.
  intros Hne Hlen. destruct locations as [|p ps]; [contradiction|].
  unfold setitem. cbn [GeoDataFrame index columns].
  destruct (Nat.eqb_spec (List.length (p :: ps)) 0); [discriminate|].
  rewrite length_map, Hlen, Nat.eqb_refl, put_column_elevation.
  cbn [bind].
  change (column _ "z") with (Ok (map (fun q => JNum (z q)) (p :: ps))).
  cbn [bind].
  rewrite <- (map_map z JNum), mean_numbers. cbn [bind].
  change (column _ "elevation") with (Ok (map JNum xs)).
  cbn [bind]. now rewrite mean_numbers.
Qed.

Lemma contributions_of_successes {A : Type} (chunks : list (list A))
    (answers : list (Response * list float)) :
  Forall2 (fun chunk a => succeeds (fst a) (List.length chunk) (snd a)) chunks answers ->
  List.concat (map contribution (map fst answers))
  = map JNum (List.concat (map snd answers)) /\
  List.length (List.concat (map snd answers)) = List.length (List.concat chunks) /\
  Forall (fun resp => status_code resp = 200 ->
                      exists es, response_elevations resp = Ok es) (map fst answers).
Proof.
  induction 1 as [|chunk [resp xs] chunks answers (H200 & Hes & Hlen) _ (IHc & IHl & IHf)].
  - repeat split; constructor.
  - cbn [map List.concat fst snd] in *.
    split; [|split].
    + rewrite map_app, <- IHc. f_equal.
      unfold contribution. now rewrite H200, Hes.
    + rewrite !length_app. congruence.
    + constructor; [|exact IHf]. intros _. now exists (map JNum xs).
Qed.

Lemma all_chunks_succeed (w : World) (self : Elevation)
    (chunks : list (list (string * string)))
    (answers : list (Response * list float)) :
  1 <= environ_BATCH_SIZE w 300 ->
  create_batch_for_polyline self (environ_BATCH_SIZE w 300) = Ok chunks ->
  exchanges w self (map coords_string chunks) [] = map (fun a => Ok (fst a)) answers ->
  Forall2 (fun chunk a => succeeds (fst a) (List.length chunk) (snd a)) chunks answers ->
  get_google_data w self []
  = (Ok (map JNum (List.concat (map snd answers))),
     map (make_uri self) (map coords_string chunks)) /\
  List.length (List.concat (map snd answers)) = List.length (locations self) /\
  (locations self <> [] ->
   get_average_elevation w self false
   = Some (Ok (sub (nanmean (map z (locations self)))
                   (nanmean (List.concat (map snd answers)))))).
Proof.
  intros Hbs Hchunks Hex Hok.
  destruct (contributions_of_successes chunks answers Hok) as (Hcontrib & Hlen & Hdec).
  assert (Hc : make_coords_strings_list w self = Ok (map coords_string chunks)).
  { unfold make_coords_strings_list, batch_coords_to_str.
    unfold create_batch_for_polyline in Hchunks. now rewrite Hchunks. }
  assert (Hg : get_google_data w self []
               = (Ok (map JNum (List.concat (map snd answers))),
                  map (make_uri self) (map coords_string chunks))).
  { unfold get_google_data, net_bind, net_lift. rewrite Hc.
    rewrite <- (map_map fst Ok) in Hex.
    rewrite (get_google_data_loop_run w self _ _ [] [] Hex Hdec).
    now rewrite Hcontrib. }
  assert (Hn : List.length (List.concat (map snd answers))
               = List.length (locations self)).
  { rewrite Hlen.
    destruct (batch_slices_partition (coords_list self) _ Hbs) as (chunks' & Hb & Hcat & _).
    unfold create_batch_for_polyline in Hchunks.
    assert (chunks' = chunks) as -> by congruence.
    rewrite Hcat. unfold coords_list. apply length_map. }
  split; [exact Hg|]. split; [exact Hn|].
  intros Hne.
  rewrite (get_average_elevation_assembled w self false
             (Ok (map JNum (List.concat (map snd answers))))).
  - cbn [bind]. f_equal. now apply aggregate_of_aligned_columns.
  - unfold assembled. cbn [negb]. now rewrite Hg.
Qed.

(** Without points the frame has no column [z]: the aggregate raises
    [KeyError], whatever the batch size accepted by [range]. *)
Remark get_average_elevation_no_point (w : World) (self : Elevation)
    (asynchronous : bool) :
  locations self = [] -> environ_BATCH_SIZE w 300 <> 0 ->
  get_average_elevation w self asynchronous = Some (Err (KeyError "z")).
Proof.
  intros Hloc Hbs.
  assert (Hc : make_coords_strings_list w self = Ok []).
  { unfold make_coords_strings_list, batch_coords_to_str, coords_list.
    rewrite Hloc. cbn [map]. now rewrite (batch_slices_nil _ Hbs). }
  destruct (get_google_data_no_chunk w self Hc) as [Hs Hasync].
  rewrite (get_average_elevation_assembled w self asynchronous (Ok [])).
  - now rewrite Hloc.
  - unfold assembled. destruct asynchronous; cbn [negb]; [exact Hasync|now rewrite Hs].
Qed.

(** The cuts of [pairwise_sum] never run out of fuel: beyond 128 entries
    the sum is the sum of the sums of the two parts. *)
Lemma pairwise_sum_upto_enough (fuel fuel' : nat) (a : list float) :
  (List.length a <= fuel)%nat -> (List.length a <= fuel')%nat ->
  pairwise_sum_upto fuel a = pairwise_sum_upto fuel' a.
Proof.
  revert fuel' a. induction fuel as [|fuel IH]; intros fuel' a Hf Hf'.
  - destruct a; [|cbn in Hf; lia]. now destruct fuel'.
  - destruct fuel' as [|fuel'].
    + destruct a; [reflexivity|cbn in Hf'; lia].
    + cbn [pairwise_sum_upto].
      destruct (Nat.leb_spec (List.length a) 128) as [|Hbig]; [reflexivity|].
      set (n2 := (List.length a / 2 - (List.length a / 2) mod 8)%nat).
      assert (Hn2 : (1 <= n2 < List.length a)%nat).
      { unfold n2.
        pose proof (Nat.div_mod_eq (List.length a) 2).
        pose proof (Nat.mod_upper_bound (List.length a) 2 ltac:(lia)).
        pose proof (Nat.mod_upper_bound (List.length a / 2) 8 ltac:(lia)).
        lia. }
      rewrite (IH fuel' (firstn n2 a)), (IH fuel' (skipn n2 a));
        rewrite ?length_firstn, ?length_skipn; try lia.
      reflexivity.
Qed.

Lemma pairwise_sum_cut (a : list float) :
  (128 < List.length a)%nat ->
  let n2 := (List.length a / 2 - (List.length a / 2) mod 8)%nat in
  pairwise_sum a = (pairwise_sum (firstn n2 a) + pairwise_sum (skipn n2 a))%float.
Proof.
  intros Hbig n2. unfold pairwise_sum at 1.
  destruct (List.length a) as [|fuel] eqn:Hlen; [lia|].
  cbn [pairwise_sum_upto]. rewrite Hlen.
  destruct (Nat.leb_spec (S fuel) 128) as [|_]; [lia|].
  fold n2.
  assert (Hn2 : (1 <= n2 < S fuel)%nat).
  { unfold n2.
    pose proof (Nat.div_mod_eq (S fuel) 2).
    pose proof (Nat.mod_upper_bound (S fuel) 2 ltac:(lia)).
    pose proof (Nat.mod_upper_bound (S fuel / 2) 8 ltac:(lia)).
    lia. }
  unfold pairwise_sum.
  rewrite (pairwise_sum_upto_enough fuel (List.length (firstn n2 a)) (firstn n2 a)),
          (pairwise_sum_upto_enough fuel (List.length (skipn n2 a)) (skipn n2 a));
    rewrite ?length_firstn, ?length_skipn; try lia.
  reflexivity.
Qed.

(** C1, as amended. For every point sequence, batched with a batch size of
    at least 1, in which the request of every chunk succeeds (status 200,
    one numeric elevation per point of the chunk), the assembled elevation
    sequence has as many entries as there are points; and when the sequence
    is not empty, [get_average_elevation] returns the mean of the reference
    elevations minus the mean of the elevations, each the float64 mean that
    pandas computes.  In particular 250 points with the reference 10,
    batched by 100 into chunks of 100, 100 and 50 and answered with the
    elevation 4, give 6.0; two points with the references 10 and 20
    answered with 4 give 11.0; and 250 points with the reference 0.1
    answered with 0.3 give -0.19999999999999998. *)
Theorem get_average_elevation_all_chunks_succeed :
  (forall (w : World) (self : Elevation)
          (chunks : list (list (string * string)))
          (answers : list (Response * list float)),
      1 <= environ_BATCH_SIZE w 300 ->
      create_batch_for_polyline self (environ_BATCH_SIZE w 300) = Ok chunks ->
      exchanges w self (map coords_string chunks) []
      = map (fun a => Ok (fst a)) answers ->
      Forall2 (fun chunk a => succeeds (fst a) (List.length chunk) (snd a))
              chunks answers ->
      get_google_data w self []
      = (Ok (map JNum (List.concat (map snd answers))),
         map (make_uri self) (map coords_string chunks)) /\
      List.length (List.concat (map snd answers)) = List.length (locations self) /\
      (locations self <> [] ->
       get_average_elevation w self false
       = Some (Ok (sub (nanmean (map z (locations self)))
                       (nanmean (List.concat (map snd answers))))))) /\
  (bind (create_batch_for_polyline (example_points 250 10%float) 100)
        (fun chunks => Ok (map (@List.length _) chunks))
   = Ok [100; 100; 50]%nat /\
   get_average_elevation (example_world (Some 100) None [])
     (example_points 250 10%float) false
   = Some (Ok 6%float)) /\
  get_average_elevation (example_world (Some 1) None [])
    (init [mkPoint "1.5" "2.5" 10%float; mkPoint "3.5" "4.5" 20%float] "KEY") false
  = Some (Ok 11%float) /\
  get_average_elevation
    {| BATCH_SIZE := Some 100;
       service := example_service None 0x1.3333333333333p-2%float;
       async_reply := example_async_reply None 0x1.3333333333333p-2%float;
       finish_order := [] |}
    (example_points 250 0x1.999999999999ap-4%float) false
  = Some (Ok (-0x1.9999999999999p-3)%float).
Proof.
  split; [exact all_chunks_succeed|].
  repeat split; vm_compute; reflexivity.
Qed.

(** C1 as stated fails on the empty point sequence: there is no chunk, so
    every chunk's request succeeds and the assembled sequence is as long as
    the point sequence, but [get_average_elevation] raises [KeyError]
    instead of returning a number. *)
Lemma get_average_elevation_empty_sequence :
  create_batch_for_polyline (example_points 0 10%float)
    (environ_BATCH_SIZE (example_world None None []) 300) = Ok [] /\
  Forall2 (fun chunk a => succeeds (fst a) (List.length chunk) (snd a))
    (@nil (list (string * string))) (@nil (Response * list float)) /\
  get_google_data (example_world None None []) (example_points 0 10%float) []
  = (Ok [], []) /\
  get_average_elevation (example_world None None []) (example_points 0 10%float) false
  = Some (Err (KeyError "z")) /\
  ~ exists x,
      get_average_elevation (example_world None None []) (example_points 0 10%float)
        false = Some (Ok x).
Proof.
  split; [reflexivity|]. split; [constructor|]. split; [reflexivity|].
  split; [reflexivity|].
  intros (x & Hx). discriminate Hx.
Qed.

(** A run of C1: the 250 points of the example meet its premises. *)
Lemma get_average_elevation_all_chunks_succeed_witness :
  get_average_elevation (example_world (Some 100) None [])
    (example_points 250 10%float) false
  = Some (Ok 6%float).
Proof.
  pose (pt := ("-21.8303712", "-49.127649")%string).
  pose (resp := fun k => mkResponse 200
                  (Ok (JObj [("results"%string,
                              JArr (repeat (JObj [("elevation"%string, JNum 4%float)]) k))]))).
  pose (chunks := [repeat pt 100; repeat pt 100; repeat pt 50]).
  pose (answers := [(resp 100%nat, repeat 4%float 100);
                    (resp 100%nat, repeat 4%float 100);
                    (resp 50%nat, repeat 4%float 50)]).
  assert (H1 : 1 <= environ_BATCH_SIZE (example_world (Some 100) None []) 300)
    by (cbn; lia).
  assert (H2 : locations (example_points 250 10%float) <> []) by discriminate.
  assert (H3 : create_batch_for_polyline (example_points 250 10%float)
                 (environ_BATCH_SIZE (example_world (Some 100) None []) 300)
               = Ok chunks) by (vm_compute; reflexivity).
  assert (H4 : exchanges (example_world (Some 100) None [])
                 (example_points 250 10%float) (map coords_string chunks) []
               = map (fun a => Ok (fst a)) answers) by (vm_compute; reflexivity).
  assert (H5 : Forall2 (fun chunk a => succeeds (fst a) (List.length chunk) (snd a))
                 chunks answers)
    by (repeat constructor; vm_compute; reflexivity).
  destruct (proj1 get_average_elevation_all_chunks_succeed _ _ chunks answers
              H1 H3 H4 H5) as (_ & _ & Havg).
  rewrite (Havg H2). vm_compute. reflexivity.
Defined.

(** ** Gathering the concurrent calls *)

Lemma nth_error_set_nth {A : Type} (l : list A) (i j : nat) (x : A) :
  nth_error (set_nth i x l) j =
  if (j =? i)%nat
  then match nth_error l i with Some _ => Some x | None => None end
  else nth_error l j.
Proof.
  revert i j. induction l as [|y l IH]; intros i j.
  - destruct i, j; cbn; try reflexivity. now destruct (j =? i)%nat.
  - destruct i as [|i], j as [|j]; cbn [set_nth nth_error Nat.eqb]; try reflexivity.
    apply IH.
Qed.

Lemma results_all_finished (tasks : list (result json)) :
  results (map (fun r => Some (gathered r)) tasks) = Some (map gathered tasks).
Proof.
  induction tasks as [|r tasks IH]; [reflexivity|].
  cbn [map results]. now rewrite IH.
Qed.

Lemma positions_all_finished (n : nat) (finished : list nat) :
  NoDup finished -> (forall i, In i finished -> (i < n)%nat) ->
  List.length finished = n ->
  forall j, (j < n)%nat -> In j finished.
Proof.
  intros Hnd Hlt Hlen j Hj.
  apply (NoDup_length_incl (l := finished) (l' := seq 0 n)); trivial.
  - rewrite length_seq. lia.
  - intros i Hi. apply in_seq. specialize (Hlt i Hi). lia.
  - apply in_seq. lia.
Qed.

Section Gathering.
Variable tasks : list (result json).

Lemma gather_after_start :
  gather_after tasks []
    {| children := repeat None (List.length tasks);
       nfinished := 0;
       outer := if (List.length tasks =? 0)%nat then Some [] else None |}.
Proof.
  split; [|split].
  - intros j. cbn [children].
    destruct (nth_error tasks j) as [r|] eqn:Hj.
    + assert (Hlt : (j < List.length tasks)%nat)
        by (apply nth_error_Some; congruence).
      cbn. now apply nth_error_repeat.
    + apply nth_error_None. rewrite repeat_length.
      now apply nth_error_None.
  - reflexivity.
  - cbn [outer List.length]. destruct tasks; reflexivity.
Qed.

Lemma gather_after_finish (finished : list nat) (g : Gather) (i : nat) :
  gather_after tasks finished g ->
  NoDup (i :: finished) ->
  (forall k, In k (i :: finished) -> (k < List.length tasks)%nat) ->
  gather_after tasks (i :: finished) (finish tasks g i).
Proof.
  intros (Hch & Hnf & Hout) Hnd Hlt.
  inversion Hnd as [|? ? Hnotin Hnd']; subst.
  assert (Hi : (i < List.length tasks)%nat) by (apply Hlt; now left).
  destruct (nth_error tasks i) as [r|] eqn:Hr;
    [|apply nth_error_None in Hr; lia].
  assert (Hpending : nth_error (children g) i = Some None).
  { rewrite Hch, Hr. now destruct (in_dec Nat.eq_dec i finished). }
  unfold finish. rewrite Hpending, Hr. unfold done_callback.
  cbn [children nfinished outer].
  assert (Hch' : forall j,
             nth_error (set_nth i (Some (gathered r)) (children g)) j =
             match nth_error tasks j with
             | None => None
             | Some r' => Some (if in_dec Nat.eq_dec j (i :: finished)
                                then Some (gathered r') else None)
             end).
  { intros j. rewrite nth_error_set_nth, Hpending.
    destruct (Nat.eqb_spec j i) as [->|Hji].
    - rewrite Hr. destruct (in_dec Nat.eq_dec i (i :: finished)) as [_|Hn];
        [reflexivity|]. exfalso. apply Hn. now left.
    - rewrite Hch. destruct (nth_error tasks j) as [r'|]; [|reflexivity].
      destruct (in_dec Nat.eq_dec j finished) as [Hin|Hnin],
               (in_dec Nat.eq_dec j (i :: finished)) as [Hin'|Hnin'];
        try reflexivity; exfalso.
      + apply Hnin'. now right.
      + destruct Hin' as [Heq|Hin']; [now apply Hji|now apply Hnin]. }
  split; [exact Hch'|]. split; [cbn [nfinished]; now rewrite Hnf|].
  cbn [outer nfinished children]. rewrite Hnf. cbn [List.length].
  destruct (Nat.eqb_spec (S (List.length finished)) (List.length tasks)) as [Hall|Hnot].
  - rewrite <- results_all_finished. f_equal.
    apply nth_error_ext. intros j. rewrite Hch', nth_error_map.
    destruct (nth_error tasks j) as [r'|] eqn:Hj; [|reflexivity].
    cbn [option_map].
    destruct (in_dec Nat.eq_dec j (i :: finished)) as [_|Hn]; [reflexivity|].
    exfalso. apply Hn.
    apply (positions_all_finished (List.length tasks)); trivial.
    apply nth_error_Some. congruence.
  - rewrite Hout.
    destruct (Nat.eqb_spec (List.length finished) (List.length tasks)) as [Hfull|_];
      [|reflexivity].
    exfalso. apply Hnotin.
    apply (positions_all_finished (List.length tasks)); trivial.
    intros k Hk. apply Hlt. now right.
Qed.

Lemma gather_after_order (order : list nat) :
  forall (finished : list nat) (g : Gather),
  gather_after tasks finished g ->
  NoDup (order ++ finished) ->
  (forall k, In k (order ++ finished) -> (k < List.length tasks)%nat) ->
  gather_after tasks (rev order ++ finished) (fold_left (finish tasks) order g).
Proof.
  induction order as [|i order IH]; intros finished g Hg Hnd Hlt; [exact Hg|].
  cbn [fold_left rev]. rewrite <- app_assoc. cbn [app].
  assert (Hperm : Permutation ((i :: order) ++ finished) (order ++ i :: finished))
    by apply Permutation_middle.
  apply IH.
  - apply gather_after_finish; trivial.
    + cbn [app] in Hnd. inversion Hnd as [|? ? Hnotin Hnd']; subst.
      constructor.
      * intros Hin. apply Hnotin. apply in_or_app. now right.
      * now apply NoDup_app_remove_l in Hnd'.
    + intros k Hk. apply Hlt. cbn [app].
      destruct Hk as [->|Hk]; [now left|right; apply in_or_app; now right].
  - now apply (Permutation_NoDup Hperm).
  - intros k Hk. apply Hlt. now apply (Permutation_in k (Permutation_sym Hperm)).
Qed.

(** Whatever the order in which the tasks finish, [gather] returns their
    results in task order. *)
Lemma gather_in_task_order (order : list nat) :
  Permutation order (seq 0 (List.length tasks)) ->
  gather tasks order = Some (map gathered tasks).
Proof.
  intros Hperm. unfold gather.
  destruct (gather_after_order order [] _ gather_after_start) as (_ & _ & Hout).
  - rewrite app_nil_r. apply (Permutation_NoDup (Permutation_sym Hperm)), seq_NoDup.
  - intros k Hk. rewrite app_nil_r in Hk.
    apply (Permutation_in k Hperm), in_seq in Hk. lia.
  - rewrite Hout, app_nil_r, length_rev, (Permutation_length Hperm), length_seq.
    now rewrite Nat.eqb_refl.
Qed.

End Gathering.

Lemma nth_error_combine_seq {A : Type} (l : list A) (start i : nat) (x : A) :
  nth_error l i = Some x ->
  nth_error (combine (seq start (List.length l)) l) i = Some ((start + i)%nat, x).
Proof.
  revert start i. induction l as [|y l IH]; intros start i Hi.
  - destruct i; discriminate Hi.
  - destruct i as [|i]; cbn in *.
    + injection Hi as ->. now rewrite Nat.add_0_r.
    + rewrite (IH (S start) i Hi). f_equal. f_equal. lia.
Qed.

Lemma nth_error_enumerate {A : Type} (l : list A) (i : nat) (x : A) :
  nth_error l i = Some x -> nth_error (enumerate l) i = Some (i, x).
Proof. apply nth_error_combine_seq. Qed.

(** C3. For every ordered list of request descriptors run in concurrent
    mode and every order in which the calls finish, the gathered list has
    one entry per descriptor and its [i]-th entry is the outcome of the
    call for the [i]-th descriptor. *)
Theorem fetch_data_keeps_descriptor_order (w : World) (urls : list string) :
  Permutation (finish_order w) (seq 0 (List.length urls)) ->
  exists responses,
    fetch_data w urls = Some responses /\
    List.length responses = List.length urls /\
    forall i url, nth_error urls i = Some url ->
      nth_error responses i = Some (gathered (make_async_request w i url)).
Proof.
  intros Hperm. unfold fetch_data.
  set (tasks := map (fun iu => make_async_request w (fst iu) (snd iu)) (enumerate urls)).
  assert (Hlen : List.length tasks = List.length urls).
  { unfold tasks, enumerate. rewrite length_map, length_combine, length_seq. lia. }
  exists (map gathered tasks). split.
  - apply gather_in_task_order. now rewrite Hlen.
  - split; [now rewrite length_map|].
    intros i url Hi. unfold tasks.
    now rewrite !nth_error_map, (nth_error_enumerate urls i url Hi).
Qed.

(** A run of C3: three calls that finish in the order third, first, second;
    the second is answered with status 500. *)
Lemma fetch_data_keeps_descriptor_order_witness :
  Permutation (finish_order (example_world (Some 1) (Some 1%nat) [2; 0; 1]%nat))
              (seq 0 (List.length ["a"; "b"; "c"]%string)) /\
  fetch_data (example_world (Some 1) (Some 1%nat) [2; 0; 1]%nat) ["a"; "b"; "c"]%string
  = Some [PyJson (constant_payload 4%float "a"); PyJson JNull;
          PyJson (constant_payload 4%float "c")].
Proof.
  assert (Hperm : Permutation
                    (finish_order (example_world (Some 1) (Some 1%nat) [2; 0; 1]%nat))
                    (seq 0 (List.length ["a"; "b"; "c"]%string))).
  { apply Permutation_sym. apply (Permutation_cons_app [2%nat] [1%nat] 0%nat).
    apply perm_swap. }
  split; [exact Hperm|].
  destruct (fetch_data_keeps_descriptor_order _ ["a"; "b"; "c"]%string Hperm)
    as (responses & Hf & _).
  rewrite Hf. vm_compute in Hf. now injection Hf as <-.
Defined.

(** ** A failed call in concurrent mode *)

(** [None] and exception objects cannot be subscripted. *)
Lemma get_elevation_from_request_failure (item : pyobj) :
  item = PyJson JNull \/ (exists e, item = PyExc e) ->
  get_elevation_from_request item = Err TypeError.
Proof. intros [->|(e & ->)]; reflexivity. Qed.

(** As soon as one gathered entry is a failure, the loop of
    [get_google_data_async] raises and no elevation list is returned. *)
Lemma get_google_data_async_loop_failure (responses : list pyobj) :
  Exists (fun item => item = PyJson JNull \/ exists e, item = PyExc e) responses ->
  forall elevations,
  exists e, get_google_data_async_loop responses elevations = Err e.
Proof.
  induction 1 as [item rest Hitem|item rest _ IH]; intros elevations;
    cbn [get_google_data_async_loop].
  - rewrite (get_elevation_from_request_failure item Hitem). now exists TypeError.
  - destruct (get_elevation_from_request item) as [es|e]; cbn [bind].
    + apply IH.
    + now exists e.
Qed.

(** C4 at a failing input: three chunks of one point, the second answered
    with status 500.  The other two calls complete and the failure is an
    entry ([None]) of the gathered list, but [get_google_data_async]
    subscripts that entry and raises [TypeError], and so does
    [get_average_elevation]; the sequential path, on the same answers, skips
    the chunk and returns the other elevations. *)
Theorem get_google_data_async_failed_chunk :
  let w := example_world (Some 1) (Some 1%nat) [2; 0; 1]%nat in
  let self := example_points 3 10%float in
  bind (generate_urls w self) (fun urls => Ok (fetch_data w urls))
  = Ok (Some [PyJson (constant_payload 4%float "x"); PyJson JNull;
              PyJson (constant_payload 4%float "x")]) /\
  get_elevation_from_request (PyJson JNull) = Err TypeError /\
  (forall e, get_elevation_from_request (PyExc e) = Err TypeError) /\
  get_google_data_async w self = Some (Err TypeError) /\
  get_average_elevation w self true = Some (Err TypeError) /\
  fst (get_google_data w self []) = Ok [JNum 4%float; JNum 4%float].
Proof. repeat split; try (vm_compute; reflexivity). Qed.

(** * Further properties of the code *)

(** ** Rendering, for arbitrary coordinates *)

Lemma string_app_assoc (s t u : string) :
  ((s ++ t) ++ u = s ++ (t ++ u))%string.
Proof. induction s as [|a s IH]; simpl; [reflexivity|now rewrite IH]. Qed.

Lemma string_app_nil_r (s : string) : (s ++ "" = s)%string.
Proof. induction s as [|a s IH]; simpl; [reflexivity|now rewrite IH]. Qed.

Lemma remove_app (c : ascii) (s t : string) :
  remove c (s ++ t) = (remove c s ++ remove c t)%string.
Proof. rewrite !remove_keep_chars. apply keep_chars_app. Qed.

Lemma all_chars_remove (c : ascii) (s : string) :
  all_chars (fun a => negb (Ascii.eqb a c)) (remove c s) = true.
Proof.
  induction s as [|a s IH]; simpl; [reflexivity|].
  destruct (Ascii.eqb a c) eqn:Ha; [exact IH|].
  simpl. now rewrite Ha, IH.
Qed.

Lemma remove_join (c : ascii) (sep : string) (parts : list string) :
  remove c (join sep parts) = join (remove c sep) (map (remove c) parts).
Proof.
  induction parts as [|p [|q rest] IH]; [reflexivity|reflexivity|].
  change (join sep (p :: q :: rest)) with (p ++ sep ++ join sep (q :: rest))%string.
  rewrite !remove_app, IH. reflexivity.
Qed.

Lemma join_app (sep : string) (a b : list string) :
  a <> [] -> b <> [] ->
  join sep (a ++ b) = (join sep a ++ sep ++ join sep b)%string.
Proof.
  intros Ha Hb. induction a as [|p [|q rest] IH]; [contradiction| |].
  - destruct b as [|r b]; [contradiction|]. reflexivity.
  - change (join sep ((p :: q :: rest) ++ b))
      with (p ++ sep ++ join sep ((q :: rest) ++ b))%string.
    rewrite IH by discriminate.
    change (join sep (p :: q :: rest)) with (p ++ sep ++ join sep (q :: rest))%string.
    now rewrite !string_app_assoc.
Qed.

(** X1. Whatever the coordinates hold, [coords_string] is the groups
    ["lat,lon"] of the points, each coordinate without its spaces, joined by
    ["|"]; the rendering never contains a space. *)
Theorem coords_string_strips_spaces (coords : list (string * string)) :
  coords_string coords = join "|" (map stripped_point coords) /\
  all_chars (fun c => negb (Ascii.eqb c " ")) (coords_string coords) = true.
Proof.
  split; [|apply all_chars_remove].
  unfold coords_string. rewrite remove_join, map_map.
  change (remove " " "|") with "|"%string. f_equal.
  apply map_ext. intros it. unfold stripped_point.
  now rewrite !remove_app.
Qed.

Lemma coords_string_app (a b : list (string * string)) :
  a <> [] -> b <> [] ->
  coords_string (a ++ b) = (coords_string a ++ "|" ++ coords_string b)%string.
Proof.
  intros Ha Hb.
  unfold coords_string. rewrite map_app, join_app, !remove_app.
  - reflexivity.
  - destruct a; [contradiction|discriminate].
  - destruct b; [contradiction|discriminate].
Qed.

(** ** The batcher: chunk count, chunk contents, composition *)

Lemma batch_slices_nonempty {A : Type} (coords : list A) (batch_size : Z)
    (chunks : list (list A)) :
  1 <= batch_size -> batch_slices coords batch_size = Ok chunks ->
  Forall (fun chunk => chunk <> []) chunks.
Proof.
  intros Hbs Hb.
  destruct (batch_slices_partition coords batch_size Hbs) as (chunks' & Hb' & _ & Hsize).
  assert (chunks' = chunks) as -> by congruence.
  apply Forall_forall. intros chunk Hin.
  apply In_nth_error in Hin. destruct Hin as (i & Hi).
  specialize (Hsize i chunk Hi). intros ->.
  destruct (S i <? List.length chunks)%nat; cbn [List.length Z.of_nat] in Hsize; lia.
Qed.

Lemma join_rendered_chunks (chunks : list (list (string * string))) :
  Forall (fun chunk => chunk <> []) chunks ->
  join "|" (map coords_string chunks) = coords_string (List.concat chunks).
Proof.
  induction 1 as [|chunk [|chunk' rest] Hne Hrest IH]; [reflexivity| |].
  - cbn. now rewrite app_nil_r.
  - change (join "|" (map coords_string (chunk :: chunk' :: rest)))
      with (coords_string chunk ++ "|"
            ++ join "|" (map coords_string (chunk' :: rest)))%string.
    rewrite IH. cbn [List.concat].
    rewrite (coords_string_app chunk (chunk' ++ List.concat rest));
      [reflexivity|exact Hne|].
    inversion Hrest as [|? ? Hne' _]; subst.
    destruct chunk'; [contradiction|]. cbn. discriminate.
Qed.

(** X2. For a batch size of at least 1, the rendered chunks joined by ["|"]
    are the rendering of the whole point list: batching changes where the
    request string is cut, not what it holds. *)
Theorem rendered_chunks_join (self : Elevation) (batch_size : Z)
    (c_strs : list string) :
  1 <= batch_size ->
  batch_coords_to_str self batch_size = Ok c_strs ->
  join "|" c_strs = coords_string (coords_list self).
Proof.
  intros Hbs Hs.
  destruct (batch_slices_partition (coords_list self) batch_size Hbs)
    as (chunks & Hb & Hcat & _).
  unfold batch_coords_to_str in Hs. rewrite Hb in Hs. cbn [bind] in Hs.
  injection Hs as <-.
  rewrite join_rendered_chunks, Hcat; [reflexivity|].
  exact (batch_slices_nonempty _ _ _ Hbs Hb).
Qed.

(** A run of X2: five points in batches of two. *)
Lemma rendered_chunks_join_witness :
  1 <= 2 /\
  batch_coords_to_str
    (init (map (fun t => mkPoint t t 0%float) ["1"; "2"; "3"; "4"; "5"]%string) "k") 2
  = Ok ["1,1|2,2"; "3,3|4,4"; "5,5"]%string /\
  join "|" ["1,1|2,2"; "3,3|4,4"; "5,5"]%string
  = coords_string
      (coords_list
         (init (map (fun t => mkPoint t t 0%float) ["1"; "2"; "3"; "4"; "5"]%string) "k")).
Proof.
  assert (Hs : batch_coords_to_str
                 (init (map (fun t => mkPoint t t 0%float)
                          ["1"; "2"; "3"; "4"; "5"]%string) "k") 2
               = Ok ["1,1|2,2"; "3,3|4,4"; "5,5"]%string) by reflexivity.
  split; [lia|]. split; [exact Hs|].
  exact (rendered_chunks_join _ 2 _ ltac:(lia) Hs).
Defined.

Lemma range_length_ceiling (n bs : Z) :
  1 <= bs -> 0 <= n -> range_length 0 n bs = (n + bs - 1) / bs.
Proof.
  intros Hbs Hn. unfold range_length.
  destruct (Z.ltb_spec 0 bs); [|lia].
  destruct (Z.ltb_spec 0 n).
  - replace (n + bs - 1) with (n - 0 - 1 + 1 * bs) by lia.
    rewrite Z.div_add by lia. reflexivity.
  - replace n with 0 by lia. symmetry. apply Z.div_small. lia.
Qed.

(** X3. For a batch size of at least 1 the batcher yields
    ceil(n / batch_size) chunks for [n] points, and its [i]-th chunk holds
    the (at most) [batch_size] points from position [i * batch_size] on. *)
Theorem batcher_chunk_count (self : Elevation) (batch_size : Z) :
  1 <= batch_size ->
  exists chunks,
    create_batch_for_polyline self batch_size = Ok chunks /\
    Z.of_nat (List.length chunks)
    = (Z.of_nat (List.length (locations self)) + batch_size - 1) / batch_size /\
    forall i, (i < List.length chunks)%nat ->
      nth_error chunks i
      = Some (firstn (Z.to_nat batch_size)
                (skipn (i * Z.to_nat batch_size) (coords_list self))).
Proof.
  intros Hbs. unfold create_batch_for_polyline.
  rewrite (batch_slices_chunks _ _ Hbs). eexists. split; [reflexivity|].
  assert (Hn : List.length (coords_list self) = List.length (locations self))
    by apply length_map.
  rewrite length_map, length_seq, Hn.
  pose proof (range_length_ceiling (Z.of_nat (List.length (locations self)))
                batch_size Hbs ltac:(lia)) as Hc.
  pose proof (Z.div_pos (Z.of_nat (List.length (locations self)) + batch_size - 1)
                batch_size ltac:(lia) ltac:(lia)).
  split; [lia|].
  intros i Hi. rewrite nth_error_map, nth_error_seq.
  destruct (Nat.ltb_spec i (Z.to_nat (range_length 0
              (Z.of_nat (List.length (locations self))) batch_size))); [reflexivity|lia].
Qed.

(** A run of X3: 250 points in batches of 100 are 3 chunks. *)
Lemma batcher_chunk_count_witness :
  1 <= 100 /\
  exists chunks,
    create_batch_for_polyline (example_points 250 10%float) 100 = Ok chunks /\
    Z.of_nat (List.length chunks) = 3.
Proof.
  split; [lia|].
  destruct (batcher_chunk_count (example_points 250 10%float) 100 ltac:(lia))
    as (chunks & Hc & Hlen & _).
  exists chunks. split; [exact Hc|]. rewrite Hlen. reflexivity.
Defined.

(** X4. When the points fit in one batch (at least one point, at most
    [batch_size]), the batcher yields the whole list as its only chunk and
    a single request string is produced. *)
Theorem batcher_single_chunk (self : Elevation) (batch_size : Z) :
  locations self <> [] ->
  Z.of_nat (List.length (locations self)) <= batch_size ->
  create_batch_for_polyline self batch_size = Ok [coords_list self] /\
  batch_coords_to_str self batch_size = Ok [coords_string (coords_list self)].
Proof.
  intros Hne Hfit.
  assert (Hn : List.length (coords_list self) = List.length (locations self))
    by apply length_map.
  assert (Hpos : (0 < List.length (locations self))%nat)
    by (destruct (locations self); [contradiction|cbn; lia]).
  assert (Hbs : 1 <= batch_size) by lia.
  assert (Hb : batch_slices (coords_list self) batch_size = Ok [coords_list self]).
  { rewrite (batch_slices_chunks _ _ Hbs), Hn.
    rewrite (range_length_ceiling _ _ Hbs) by lia.
    replace ((Z.of_nat (List.length (locations self)) + batch_size - 1) / batch_size)
      with 1.
    - change (Z.to_nat 1) with 1%nat. cbn [seq map Nat.mul skipn].
      f_equal. f_equal. apply firstn_all2. lia.
    - apply (Z.div_unique_pos _ _ 1
                (Z.of_nat (List.length (locations self)) - 1)); lia. }
  split; [exact Hb|].
  unfold batch_coords_to_str. now rewrite Hb.
Qed.

(** A run of X4: three points and the default batch size of 300. *)
Lemma batcher_single_chunk_witness :
  batch_coords_to_str (example_points 3 10%float) 300
  = Ok ["-21.8303712,-49.127649|-21.8303712,-49.127649|-21.8303712,-49.127649"%string].
Proof.
  exact (proj2 (batcher_single_chunk (example_points 3 10%float) 300
                  ltac:(discriminate) ltac:(cbn; lia))).
Defined.

(** ** Distinct chunks render differently *)

Lemma number_char_not_comma (c : ascii) :
  number_char c = true -> Ascii.eqb c "," = false.
Proof.
  destruct c as [[] [] [] [] [] [] [] []]; vm_compute; intros H;
    first [discriminate H | reflexivity].
Qed.

Lemma cut_at_separator (c : ascii) (a a' b b' : string) :
  all_chars (fun x => negb (Ascii.eqb x c)) a = true ->
  all_chars (fun x => negb (Ascii.eqb x c)) a' = true ->
  (a ++ String c b = a' ++ String c b')%string ->
  a = a' /\ b = b'.
Proof.
  revert a'. induction a as [|x a IH]; intros [|y a'] Ha Ha' Heq; cbn in *.
  - injection Heq as ->. now split.
  - injection Heq as <- _. now rewrite Ascii.eqb_refl in Ha'.
  - injection Heq as -> _. now rewrite Ascii.eqb_refl in Ha.
  - injection Heq as -> Heq.
    apply andb_prop in Ha, Ha'. destruct Ha as [_ Ha], Ha' as [_ Ha'].
    destruct (IH a' Ha Ha' Heq) as [-> ->]. now split.
Qed.

Lemma rendered_point_injective (it it' : string * string) :
  number_text (fst it) = true -> number_text (fst it') = true ->
  rendered_point it = rendered_point it' -> it = it'.
Proof.
  intros Hn Hn' Heq. destruct it as [a b], it' as [a' b']. cbn [fst snd] in *.
  unfold rendered_point in Heq. cbn [fst snd] in Heq.
  destruct (cut_at_separator "," a a' b b') as [-> ->]; trivial.
  - eapply all_chars_weaken; [|exact Hn].
    intros c Hc. now rewrite (number_char_not_comma c Hc).
  - eapply all_chars_weaken; [|exact Hn'].
    intros c Hc. now rewrite (number_char_not_comma c Hc).
Qed.

Lemma map_rendered_point_injective (a b : list (string * string)) :
  Forall (fun it => number_text (fst it) = true /\ number_text (snd it) = true) a ->
  Forall (fun it => number_text (fst it) = true /\ number_text (snd it) = true) b ->
  map rendered_point a = map rendered_point b -> a = b.
Proof.
  intros Ha. revert b. induction Ha as [|it a [Hit _] _ IH]; intros b Hb Heq.
  - destruct b; [reflexivity|discriminate Heq].
  - destruct Hb as [|it' b [Hit' _] Hb]; [discriminate Heq|].
    cbn [map] in Heq. injection Heq as Hhead Htail.
    now rewrite (rendered_point_injective it it' Hit Hit' Hhead), (IH b Hb Htail).
Qed.

Lemma coords_string_numbers (coords : list (string * string)) :
  Forall (fun it => number_text (fst it) = true /\ number_text (snd it) = true) coords ->
  coords_string coords = join "|" (map rendered_point coords) /\
  Forall (fun g => all_chars (fun a => negb (Ascii.eqb a "|")) g = true)
         (map rendered_point coords).
Proof.
  intros Hn. split.
  - unfold coords_string. rewrite remove_keep_chars.
    apply keep_chars_rendered; try reflexivity; [|exact Hn].
    intros c Hc. now rewrite (proj1 (number_char_plain c Hc)).
  - apply rendered_point_chars; [|reflexivity|exact Hn].
    intros c Hc. now rewrite (proj1 (proj2 (number_char_plain c Hc))).
Qed.

(** X5. On chunks whose coordinates print as numbers the rendering loses
    nothing: two chunks with the same request string are the same chunk. *)
Theorem coords_string_injective (a b : list (string * string)) :
  Forall (fun it => number_text (fst it) = true /\ number_text (snd it) = true) a ->
  Forall (fun it => number_text (fst it) = true /\ number_text (snd it) = true) b ->
  coords_string a = coords_string b -> a = b.
Proof.
  intros Ha Hb Heq.
  destruct (coords_string_numbers a Ha) as [Hra Hga].
  destruct (coords_string_numbers b Hb) as [Hrb Hgb].
  rewrite Hra, Hrb in Heq.
  apply (f_equal (split "|")) in Heq.
  assert (Hempty : forall it rest,
             split "|" "" <> map rendered_point (it :: rest)).
  { intros [x y] rest H. cbn in H. injection H as H _.
    unfold rendered_point in H. cbn [fst snd] in H.
    destruct x; discriminate H. }
  destruct a as [|ia a], b as [|ib b]; [reflexivity| | |].
  - exfalso. rewrite (split_join "|"%char _ Hgb) in Heq by discriminate.
    exact (Hempty ib b Heq).
  - exfalso. rewrite (split_join "|"%char _ Hga) in Heq by discriminate.
    exact (Hempty ia a (eq_sym Heq)).
  - rewrite (split_join "|"%char _ Hga), (split_join "|"%char _ Hgb) in Heq
      by discriminate.
    now apply map_rendered_point_injective.
Qed.

(** A run of X5. *)
Lemma coords_string_injective_witness :
  coords_string [("1.5", "2")]%string = coords_string [("1.5", "2")]%string /\
  [("1.5", "2")]%string = [("1.5", "2")]%string.
Proof.
  split; [reflexivity|].
  exact (coords_string_injective [("1.5", "2")]%string [("1.5", "2")]%string
           ltac:(repeat constructor) ltac:(repeat constructor) eq_refl).
Defined.

(** ** What [get_elevation_from_request] accepts and how it fails *)

Lemma comprehension_get_elevation_ok (items elevations : list json) :
  comprehension (fun item => get item "elevation") items = Ok elevations ->
  Forall (fun item => is_dict item = true) items /\
  elevations = map elevation_field items.
Proof.
  revert elevations. induction items as [|item items IH]; intros elevations H.
  - cbn in H. injection H as <-. now split.
  - cbn [comprehension] in H.
    destruct item; cbn [get] in H; try discriminate H.
    destruct (comprehension (fun item => get item "elevation") items) as [es|e];
      [|discriminate H].
    injection H as <-. destruct (IH es eq_refl) as [Hd ->].
    split; [now constructor|reflexivity].
Qed.

Lemma comprehension_get_elevation_error (items : list json) :
  Exists (fun item => is_dict item = false) items ->
  comprehension (fun item => get item "elevation") items = Err AttributeError.
Proof.
  induction items as [|item items IH]; intros H; [inversion H|].
  cbn [comprehension].
  destruct (is_dict item) eqn:Hd.
  - destruct item; try discriminate Hd. cbn [get].
    rewrite IH; [reflexivity|].
    inversion H as [? ? Hf|]; subst; [discriminate Hf|assumption].
  - destruct item; try discriminate Hd; reflexivity.
Qed.

(** X6. [get_elevation_from_request] returns a list exactly for a payload
    that is an object whose ["results"] is a list of objects (the list of
    their ["elevation"] fields), or an empty object or empty string (the
    empty list); every other payload makes it raise. *)
Theorem get_elevation_from_request_returns_iff (payload : json)
    (elevations : list json) :
  get_elevation_from_request (PyJson payload) = Ok elevations <->
  exists fields,
    payload = JObj fields /\
    ((exists items,
         dict_get fields "results" = Some (JArr items) /\
         Forall (fun item => is_dict item = true) items /\
         elevations = map elevation_field items) \/
     (dict_get fields "results" = Some (JObj []) /\ elevations = []) \/
     (dict_get fields "results" = Some (JStr "") /\ elevations = [])).
Proof.
  unfold get_elevation_from_request. split.
  - intros H. destruct payload as [| | | | |fields]; try discriminate H.
    exists fields. split; [reflexivity|]. cbn [getitem] in H.
    destruct (dict_get fields "results") as [v|]; [|discriminate H].
    cbn [bind] in H.
    destruct v as [| | |s|items|fs]; cbn [iter bind] in H; try discriminate H.
    + right. right. destruct s as [|c s]; cbn in H; [|discriminate H].
      injection H as <-. now split.
    + left. exists items. split; [reflexivity|].
      now apply comprehension_get_elevation_ok.
    + right. left. destruct fs as [|f fs]; cbn in H; [|discriminate H].
      injection H as <-. now split.
  - intros (fields & -> & [(items & Hr & Hd & ->)|[[Hr ->]|[Hr ->]]]);
      cbn [getitem]; rewrite Hr; cbn [bind iter]; [|reflexivity|reflexivity].
    now apply comprehension_get_elevation.
Qed.

(** X7. How [get_elevation_from_request] fails: [KeyError] when the payload
    object has no ["results"], [TypeError] when the payload is no object or
    its ["results"] is a number, a bool or [None], and [AttributeError] when
    ["results"] is a list with an element that is no object. *)
Theorem get_elevation_from_request_errors :
  (forall fields,
      dict_get fields "results" = None ->
      get_elevation_from_request (PyJson (JObj fields)) = Err (KeyError "results")) /\
  (forall payload,
      is_dict payload = false ->
      get_elevation_from_request (PyJson payload) = Err TypeError) /\
  (forall fields v,
      dict_get fields "results" = Some v ->
      iter v = Err TypeError ->
      get_elevation_from_request (PyJson (JObj fields)) = Err TypeError) /\
  (forall fields items,
      dict_get fields "results" = Some (JArr items) ->
      Exists (fun item => is_dict item = false) items ->
      get_elevation_from_request (PyJson (JObj fields)) = Err AttributeError).
Proof.
  unfold get_elevation_from_request. repeat split.
  - intros fields H. cbn [getitem]. now rewrite H.
  - intros payload H. destruct payload; try discriminate H; reflexivity.
  - intros fields v Hr Hv. cbn [getitem]. rewrite Hr. cbn [bind]. now rewrite Hv.
  - intros fields items Hr Hex. cbn [getitem]. rewrite Hr. cbn [bind iter].
    now apply comprehension_get_elevation_error.
Qed.

(** A run of X7: a payload without ["results"], a payload that is a list,
    a ["results"] that is a number, and a ["results"] list holding a
    string. *)
Lemma get_elevation_from_request_errors_witness :
  get_elevation_from_request (PyJson (JObj [("status"%string, JStr "OK")]))
  = Err (KeyError "results") /\
  get_elevation_from_request (PyJson (JArr [])) = Err TypeError /\
  get_elevation_from_request (PyJson (JObj [("results"%string, JNum 1%float)]))
  = Err TypeError /\
  get_elevation_from_request
    (PyJson (JObj [("results"%string, JArr [JObj []; JStr "x"])]))
  = Err AttributeError.
Proof.
  destruct get_elevation_from_request_errors as (Hkey & Hpayload & Hiter & Hitem).
  split; [exact (Hkey [("status"%string, JStr "OK")] eq_refl)|].
  split; [exact (Hpayload (JArr []) eq_refl)|].
  split; [exact (Hiter [("results"%string, JNum 1%float)] (JNum 1%float)
                   eq_refl eq_refl)|].
  apply (Hitem [("results"%string, JArr [JObj []; JStr "x"])]
           [JObj []; JStr "x"] eq_refl).
  right. left. reflexivity.
Defined.

(** ** The sequential fetcher: requests made, aborts, dropped chunks *)

Lemma get_google_data_loop_cases (w : World) (self : Elevation)
    (item : string) (rest : list string) (acc : list json) (log : list string) :
  (exists e, get_google_data_loop w self (item :: rest) acc log
             = (Err e, log ++ [make_uri self item])) \/
  (exists acc', get_google_data_loop w self (item :: rest) acc log
                = get_google_data_loop w self rest acc' (log ++ [make_uri self item])).
Proof.
  assert (Heq : get_google_data_loop w self (item :: rest) acc log =
                match service w log (make_uri self item) with
                | Err e => (Err e, log ++ [make_uri self item])
                | Ok resp =>
                    if status_code resp =? 200 then
                      match payload <- json_body resp ;;
                            get_elevation_from_request (PyJson payload) with
                      | Ok es => get_google_data_loop w self rest (acc ++ es)
                                   (log ++ [make_uri self item])
                      | Err e => (Err e, log ++ [make_uri self item])
                      end
                    else get_google_data_loop w self rest acc
                           (log ++ [make_uri self item])
                end).
  { cbn [get_google_data_loop].
    unfold net_bind, net_lift, make_request, http_get.
    destruct (service w log (make_uri self item)) as [resp|e]; [|reflexivity].
    destruct (status_code resp =? 200); [|reflexivity].
    now destruct (payload <- json_body resp ;;
                  get_elevation_from_request (PyJson payload)). }
  rewrite Heq. clear Heq.
  destruct (service w log (make_uri self item)) as [resp|e];
    [|left; exists e; reflexivity].
  destruct (status_code resp =? 200); [|right; exists acc; reflexivity].
  destruct (payload <- json_body resp ;; get_elevation_from_request (PyJson payload))
    as [es|e]; [right; exists (acc ++ es); reflexivity|left; exists e; reflexivity].
Qed.

Lemma get_google_data_loop_requests (w : World) (self : Elevation)
    (c_strs : list string) :
  forall (acc : list json) (log : list string),
  exists k,
    snd (get_google_data_loop w self c_strs acc log)
    = log ++ firstn k (map (make_uri self) c_strs) /\
    (forall es, fst (get_google_data_loop w self c_strs acc log) = Ok es ->
                k = List.length c_strs).
Proof.
  induction c_strs as [|item rest IH]; intros acc log.
  - exists 0%nat. cbn. rewrite app_nil_r. now split.
  - destruct (get_google_data_loop_cases w self item rest acc log)
      as [(e & ->)|(acc' & ->)].
    + exists 1%nat. cbn. split; [reflexivity|discriminate].
    + destruct (IH acc' (log ++ [make_uri self item])) as (k & Hk & Hall).
      exists (S k). cbn [map firstn List.length]. rewrite Hk, <- app_assoc.
      split; [reflexivity|]. intros es Hes. now rewrite (Hall es Hes).
Qed.

(** X8. The sequential fetcher requests, in order and without repeating or
    skipping any, URLs of the list that [generate_urls] builds for the
    concurrent one: what it has requested is always a prefix of that list,
    and the whole list whenever it returns a result. *)
Theorem get_google_data_requests (w : World) (self : Elevation)
    (urls : list string) :
  generate_urls w self = Ok urls ->
  exists k,
    snd (get_google_data w self []) = firstn k urls /\
    (forall es, fst (get_google_data w self []) = Ok es ->
                snd (get_google_data w self []) = urls).
Proof.
  intros Hu. unfold generate_urls in Hu. unfold get_google_data, net_bind, net_lift.
  destruct (make_coords_strings_list w self) as [c_strs|e]; [|discriminate Hu].
  cbn [bind] in Hu. injection Hu as <-.
  destruct (get_google_data_loop_requests w self c_strs [] []) as (k & Hk & Hall).
  exists k. split; [exact Hk|].
  intros es Hes. rewrite Hk, (Hall es Hes), <- (length_map (make_uri self)).
  apply firstn_all.
Qed.

(** A run of X8: three chunks, all requested. *)
Lemma get_google_data_requests_witness :
  generate_urls (example_world (Some 1) (Some 1%nat) []) (example_points 3 10%float)
  = Ok (map (make_uri (example_points 3 10%float))
          ["-21.8303712,-49.127649"; "-21.8303712,-49.127649";
           "-21.8303712,-49.127649"]%string) /\
  exists k,
    snd (get_google_data (example_world (Some 1) (Some 1%nat) [])
           (example_points 3 10%float) [])
    = firstn k (map (make_uri (example_points 3 10%float))
                  ["-21.8303712,-49.127649"; "-21.8303712,-49.127649";
                   "-21.8303712,-49.127649"]%string).
Proof.
  split; [reflexivity|].
  destruct (get_google_data_requests (example_world (Some 1) (Some 1%nat) [])
              (example_points 3 10%float) _ eq_refl) as (k & Hk & _).
  exists k. exact Hk.
Defined.

Lemma get_google_data_loop_prefix (w : World) (self : Elevation)
    (pre rest : list string) (resps : list Response) :
  forall (acc : list json) (log : list string),
  exchanges w self pre log = map Ok resps ->
  Forall (fun resp => status_code resp = 200 ->
                      exists es, response_elevations resp = Ok es) resps ->
  get_google_data_loop w self (pre ++ rest) acc log
  = get_google_data_loop w self rest
      (acc ++ List.concat (map contribution resps))
      (log ++ map (make_uri self) pre).
Proof.
  revert resps. induction pre as [|item pre IH]; intros resps acc log Hex Hall.
  - destruct resps; [|discriminate Hex]. cbn. now rewrite !app_nil_r.
  - destruct resps as [|resp resps]; [discriminate Hex|].
    cbn [exchanges map] in Hex. injection Hex as Hs Hrest.
    inversion Hall as [|? ? Hresp Hresps]; subst.
    cbn [app].
    rewrite (get_google_data_loop_step w self item (pre ++ rest) acc log resp Hs Hresp).
    rewrite (IH resps _ _ Hrest Hresps).
    cbn [map List.concat]. now rewrite <- !app_assoc.
Qed.

(** X9. The sequential fetcher stops at the first chunk whose request
    raises, or whose 200 answer cannot be decoded or lacks the expected
    shape: it raises that error, the elevations gathered so far are lost,
    and the chunks after it are never requested. *)
Theorem get_google_data_aborts (w : World) (self : Elevation)
    (pre post : list string) (item : string) (resps : list Response) (e : exn) :
  exchanges w self pre [] = map Ok resps ->
  Forall (fun resp => status_code resp = 200 ->
                      exists es, response_elevations resp = Ok es) resps ->
  service w (map (make_uri self) pre) (make_uri self item) = Err e \/
  (exists resp,
      service w (map (make_uri self) pre) (make_uri self item) = Ok resp /\
      status_code resp = 200 /\ response_elevations resp = Err e) ->
  get_google_data_loop w self (pre ++ item :: post) [] []
  = (Err e, map (make_uri self) (pre ++ [item])).
Proof.
  intros Hex Hall Hfail.
  rewrite (get_google_data_loop_prefix w self pre (item :: post) resps [] [] Hex Hall).
  cbn [app get_google_data_loop]. rewrite map_app. cbn [map].
  unfold net_bind at 1, make_request, http_get.
  destruct Hfail as [Hs|(resp & Hs & H200 & Hel)]; rewrite Hs; [reflexivity|].
  rewrite H200. cbn [Z.eqb Pos.eqb]. unfold net_bind, net_lift.
  fold (response_elevations resp). now rewrite Hel.
Qed.

(** A run of X9: the second of three chunks is answered with status 200
    and a body that is no JSON. *)
Lemma get_google_data_aborts_witness :
  let w := {| BATCH_SIZE := Some 1;
              service := fun log uri =>
                if (List.length log =? 1)%nat
                then Ok (mkResponse 200 (Err JSONDecodeError))
                else Ok (mkResponse 200 (Ok (constant_payload 4%float uri)));
              async_reply := fun _ _ => Failed TransportError;
              finish_order := [] |} in
  get_google_data_loop w (example_points 3 10%float) ["a"; "b"; "c"]%string [] []
  = (Err JSONDecodeError,
     map (make_uri (example_points 3 10%float)) ["a"; "b"]%string).
Proof.
  intros w.
  apply (get_google_data_aborts w (example_points 3 10%float) ["a"%string]
           ["c"%string] "b"%string
           [mkResponse 200 (Ok (constant_payload 4%float "a"))] JSONDecodeError).
  - reflexivity.
  - repeat constructor. intros _. eexists. reflexivity.
  - right. eexists. repeat split; reflexivity.
Defined.

Lemma contributions_bounded {A : Type} (chunks : list (list A))
    (resps : list Response) :
  Forall2 (fun chunk resp =>
             status_code resp = 200 ->
             exists es, response_elevations resp = Ok es /\
                        List.length es = List.length chunk) chunks resps ->
  Forall (fun chunk => chunk <> []) chunks ->
  Forall (fun resp => status_code resp = 200 ->
                      exists es, response_elevations resp = Ok es) resps /\
  (List.length (List.concat (map contribution resps))
   <= List.length (List.concat chunks))%nat /\
  (Exists (fun resp => status_code resp <> 200) resps ->
   (List.length (List.concat (map contribution resps))
    < List.length (List.concat chunks))%nat).
Proof.
  induction 1 as [|chunk resp chunks resps Hhead _ IH]; intros Hne.
  - split; [constructor|]. split; [apply Nat.le_refl|].
    intros H. inversion H.
  - inversion Hne as [|? ? Hchunk Hne']; subst.
    destruct (IH Hne') as (IHd & IHle & IHlt).
    assert (Hpos : (0 < List.length chunk)%nat)
      by (destruct chunk; [contradiction|cbn; lia]).
    cbn [map List.concat]. rewrite !length_app.
    unfold contribution at 1 3.
    destruct (Z.eqb_spec (status_code resp) 200) as [H200|Hnot].
    + destruct (Hhead H200) as (es & Hes & Hlen). rewrite Hes, Hlen.
      split; [constructor; [intros _; now exists es|exact IHd]|].
      split; [lia|].
      intros Hex. inversion Hex as [? ? Hbad|? ? Hlater]; subst;
        [contradiction|]. specialize (IHlt Hlater). lia.
    + split; [constructor; [intros H; contradiction|exact IHd]|].
      cbn [List.length]. split; lia.
Qed.

(** X10. In sequential mode a dropped chunk never goes unnoticed: with a
    batch size of at least 1, when every 200 answer gives one elevation per
    point of its chunk and at least one chunk is answered with another
    status, fewer elevations than points are assembled and
    [get_average_elevation] raises the length-mismatch [ValueError]. *)
Theorem dropped_chunk_is_detected (w : World) (self : Elevation)
    (chunks : list (list (string * string))) (resps : list Response) :
  1 <= environ_BATCH_SIZE w 300 ->
  create_batch_for_polyline self (environ_BATCH_SIZE w 300) = Ok chunks ->
  exchanges w self (map coords_string chunks) [] = map Ok resps ->
  Forall2 (fun chunk resp =>
             status_code resp = 200 ->
             exists es, response_elevations resp = Ok es /\
                        List.length es = List.length chunk) chunks resps ->
  Exists (fun resp => status_code resp <> 200) resps ->
  exists elevation,
    fst (get_google_data w self []) = Ok elevation /\
    (List.length elevation < List.length (locations self))%nat /\
    get_average_elevation w self false
    = Some (Err (ValueError_length (List.length elevation)
                                   (List.length (locations self)))).
Proof.
  intros Hbs Hchunks Hex Hall Hbad.
  unfold create_batch_for_polyline in Hchunks.
  pose proof (batch_slices_nonempty _ _ _ Hbs Hchunks) as Hne.
  destruct (contributions_bounded chunks resps Hall Hne) as (Hdec & _ & Hlt).
  specialize (Hlt Hbad).
  destruct (batch_slices_partition (coords_list self) _ Hbs) as (chunks' & Hb & Hcat & _).
  assert (chunks' = chunks) as -> by congruence.
  rewrite Hcat in Hlt. unfold coords_list in Hlt. rewrite length_map in Hlt.
  assert (Hc : make_coords_strings_list w self = Ok (map coords_string chunks)).
  { unfold make_coords_strings_list, batch_coords_to_str. now rewrite Hchunks. }
  assert (Hg : get_google_data w self []
               = (Ok (List.concat (map contribution resps)),
                  map (make_uri self) (map coords_string chunks))).
  { unfold get_google_data, net_bind, net_lift. rewrite Hc.
    exact (get_google_data_loop_run w self _ _ [] [] Hex Hdec). }
  exists (List.concat (map contribution resps)).
  split; [now rewrite Hg|]. split; [exact Hlt|].
  rewrite (get_average_elevation_assembled w self false
             (Ok (List.concat (map contribution resps)))).
  - cbn [bind]. rewrite setitem_length_mismatch; [reflexivity| |lia].
    intros Hloc. rewrite Hloc in Hlt. cbn in Hlt. lia.
  - unfold assembled. cbn [negb]. now rewrite Hg.
Qed.

(** A run of X10: five chunks of one point, the third answered with status
    500. *)
Lemma dropped_chunk_is_detected_witness :
  get_average_elevation (example_world (Some 1) (Some 2%nat) [])
    (example_points 5 10%float) false
  = Some (Err (ValueError_length 4 5)).
Proof.
  pose (ok := mkResponse 200 (Ok (constant_payload 4%float "x"))).
  pose (bad := mkResponse 500 (Err JSONDecodeError)).
  destruct (dropped_chunk_is_detected (example_world (Some 1) (Some 2%nat) [])
              (example_points 5 10%float)
              (repeat [("-21.8303712", "-49.127649")%string] 5)
              [ok; ok; bad; ok; ok])
    as (elevation & Hg & _ & Havg).
  - cbn. lia.
  - reflexivity.
  - reflexivity.
  - repeat constructor; intros H; try discriminate H;
      eexists; split; reflexivity.
  - right. right. left. discriminate.
  - vm_compute in Hg. injection Hg as <-. exact Havg.
Defined.

(** ** The concurrent path when every call succeeds, and when one fails *)

Lemma get_google_data_async_loop_ok (w : World) (calls : list (nat * string))
    (answers : list (json * list json)) :
  Forall2 (fun iu a =>
             async_reply w (fst iu) (snd iu) = Replied 200 (Ok (fst a)) /\
             get_elevation_from_request (PyJson (fst a)) = Ok (snd a))
          calls answers ->
  forall acc,
    get_google_data_async_loop
      (map gathered (map (fun iu => make_async_request w (fst iu) (snd iu)) calls)) acc
    = Ok (acc ++ List.concat (map snd answers)).
Proof.
  induction 1 as [|iu a calls answers [Hreply Hel] _ IH]; intros acc.
  - cbn. now rewrite app_nil_r.
  - cbn [map get_google_data_async_loop List.concat].
    unfold make_async_request at 1. rewrite Hreply. cbn [Z.eqb Pos.eqb gathered].
    rewrite Hel. cbn [bind]. rewrite IH. now rewrite app_assoc.
Qed.

(** X11. In concurrent mode, when every call is answered with status 200
    and a payload of the expected shape, [get_google_data_async] returns
    the elevations of the chunks concatenated in chunk order, whatever the
    order in which the calls finish. *)
Theorem get_google_data_async_all_succeed (w : World) (self : Elevation)
    (c_strs : list string) (answers : list (json * list json)) :
  make_coords_strings_list w self = Ok c_strs ->
  Permutation (finish_order w) (seq 0 (List.length c_strs)) ->
  Forall2 (fun iu a =>
             async_reply w (fst iu) (snd iu) = Replied 200 (Ok (fst a)) /\
             get_elevation_from_request (PyJson (fst a)) = Ok (snd a))
          (enumerate (map (make_uri self) c_strs)) answers ->
  get_google_data_async w self = Some (Ok (List.concat (map snd answers))).
Proof.
  intros Hc Hperm Hall.
  unfold get_google_data_async, generate_urls. rewrite Hc. cbn [bind].
  unfold fetch_data. rewrite gather_in_task_order.
  - f_equal. exact (get_google_data_async_loop_ok w _ _ Hall []).
  - unfold enumerate. now rewrite length_map, length_combine, length_seq,
      Nat.min_id, length_map.
Qed.

(** A run of X11: three calls that finish in the order third, first,
    second. *)
Lemma get_google_data_async_all_succeed_witness :
  get_google_data_async (example_world (Some 1) None [2; 0; 1]%nat)
    (example_points 3 10%float)
  = Some (Ok [JNum 4%float; JNum 4%float; JNum 4%float]).
Proof.
  apply (get_google_data_async_all_succeed
           (example_world (Some 1) None [2; 0; 1]%nat) (example_points 3 10%float)
           (repeat "-21.8303712,-49.127649"%string 3)
           (repeat (constant_payload 4%float "x", [JNum 4%float]) 3)).
  - reflexivity.
  - apply Permutation_sym. apply (Permutation_cons_app [2%nat] [1%nat] 0%nat).
    apply perm_swap.
  - repeat constructor.
Defined.

(** X12. The two modes agree when nothing fails: if the concurrent calls
    and the sequential requests are answered with status 200 and the same
    payloads of the expected shape, both fetchers return the same elevation
    list and [get_average_elevation] gives the same outcome in either
    mode. *)
Theorem modes_agree_when_all_succeed (w : World) (self : Elevation)
    (c_strs : list string) (answers : list (json * list json)) :
  make_coords_strings_list w self = Ok c_strs ->
  Permutation (finish_order w) (seq 0 (List.length c_strs)) ->
  Forall2 (fun iu a =>
             async_reply w (fst iu) (snd iu) = Replied 200 (Ok (fst a)) /\
             get_elevation_from_request (PyJson (fst a)) = Ok (snd a))
          (enumerate (map (make_uri self) c_strs)) answers ->
  exchanges w self c_strs []
  = map (fun a => Ok (mkResponse 200 (Ok (fst a)))) answers ->
  get_google_data_async w self = Some (fst (get_google_data w self [])) /\
  get_average_elevation w self true = get_average_elevation w self false.
Proof.
  intros Hc Hperm Hall Hex.
  assert (Hasync : get_google_data_async w self
                   = Some (Ok (List.concat (map snd answers)))).
  { unfold get_google_data_async, generate_urls. rewrite Hc. cbn [bind].
    unfold fetch_data. rewrite gather_in_task_order.
    - f_equal. exact (get_google_data_async_loop_ok w _ _ Hall []).
    - unfold enumerate. now rewrite length_map, length_combine, length_seq,
        Nat.min_id, length_map. }
  assert (Hel : Forall (fun a => get_elevation_from_request (PyJson (fst a))
                                 = Ok (snd a)) answers).
  { clear -Hall. induction Hall as [|? ? ? ? [_ H] _ IH]; constructor; assumption. }
  assert (Hdec : Forall (fun resp => status_code resp = 200 ->
                                     exists es, response_elevations resp = Ok es)
                   (map (fun a => mkResponse 200 (Ok (fst a))) answers)).
  { apply Forall_map. eapply Forall_impl; [|exact Hel].
    intros a Ha _. exists (snd a). exact Ha. }
  assert (Hcontrib : List.concat (map contribution
                        (map (fun a => mkResponse 200 (Ok (fst a))) answers))
                     = List.concat (map snd answers)).
  { rewrite map_map. f_equal. apply map_ext_Forall.
    eapply Forall_impl; [|exact Hel].
    intros a Ha. unfold contribution, response_elevations.
    cbn [status_code json_body Z.eqb Pos.eqb bind]. now rewrite Ha. }
  rewrite <- (map_map (fun a => mkResponse 200 (Ok (fst a))) Ok) in Hex.
  assert (Hsync : fst (get_google_data w self [])
                  = Ok (List.concat (map snd answers))).
  { unfold get_google_data, net_bind, net_lift. rewrite Hc.
    rewrite (get_google_data_loop_run w self _ _ [] [] Hex Hdec).
    cbn [fst app]. now rewrite Hcontrib. }
  split; [now rewrite Hasync, Hsync|].
  rewrite (get_average_elevation_assembled w self true
             (Ok (List.concat (map snd answers))))
    by (unfold assembled; cbn [negb]; exact Hasync).
  rewrite (get_average_elevation_assembled w self false
             (Ok (List.concat (map snd answers))))
    by (unfold assembled; cbn [negb]; now rewrite Hsync).
  reflexivity.
Qed.

(** A run of X12: three chunks of one point. *)
Lemma modes_agree_when_all_succeed_witness :
  get_average_elevation (example_world (Some 1) None [2; 0; 1]%nat)
    (example_points 3 10%float) true
  = get_average_elevation (example_world (Some 1) None [2; 0; 1]%nat)
      (example_points 3 10%float) false.
Proof.
  apply (modes_agree_when_all_succeed
           (example_world (Some 1) None [2; 0; 1]%nat) (example_points 3 10%float)
           (repeat "-21.8303712,-49.127649"%string 3)
           (repeat (constant_payload 4%float "x", [JNum 4%float]) 3)).
  - reflexivity.
  - apply Permutation_sym. apply (Permutation_cons_app [2%nat] [1%nat] 0%nat).
    apply perm_swap.
  - repeat constructor.
  - reflexivity.
Defined.

(** X13. In concurrent mode one failed call fails the whole run: when the
    calls all finish and one of them meets an exception, a status other
    than 200 or an undecodable body, [get_google_data_async] raises and
    returns no elevation at all, and so does [get_average_elevation]. *)
Theorem get_google_data_async_one_failure (w : World) (self : Elevation)
    (urls : list string) (i : nat) (url : string) :
  generate_urls w self = Ok urls ->
  Permutation (finish_order w) (seq 0 (List.length urls)) ->
  nth_error urls i = Some url ->
  (exists e, async_reply w i url = Failed e) \/
  (exists status body, async_reply w i url = Replied status body /\ status <> 200) \/
  (exists e, async_reply w i url = Replied 200 (Err e)) ->
  exists e,
    get_google_data_async w self = Some (Err e) /\
    get_average_elevation w self true = Some (Err e).
Proof.
  intros Hu Hperm Hi Hfail.
  set (tasks := map (fun iu => make_async_request w (fst iu) (snd iu)) (enumerate urls)).
  assert (Hf : fetch_data w urls = Some (map gathered tasks)).
  { assert (Hlen : List.length tasks = List.length urls).
    { unfold tasks, enumerate. rewrite length_map, length_combine, length_seq. lia. }
    unfold fetch_data. apply gather_in_task_order. fold tasks. now rewrite Hlen. }
  assert (Hitem : nth_error (map gathered tasks) i
                  = Some (gathered (make_async_request w i url))).
  { unfold tasks. now rewrite !nth_error_map, (nth_error_enumerate urls i url Hi). }
  assert (Hbad : gathered (make_async_request w i url) = PyJson JNull \/
                 exists e, gathered (make_async_request w i url) = PyExc e).
  { unfold make_async_request.
    destruct Hfail as [(e & ->)|[(status & body & -> & Hs)|(e & ->)]].
    - right. now exists e.
    - left. now destruct (Z.eqb_spec status 200).
    - right. now exists e. }
  destruct (get_google_data_async_loop_failure (map gathered tasks)) with (elevations := @nil json)
    as (e & He).
  { apply Exists_exists. eexists. split; [|exact Hbad].
    eapply nth_error_In. exact Hitem. }
  exists e.
  assert (Ha : get_google_data_async w self = Some (Err e)).
  { unfold get_google_data_async. now rewrite Hu, Hf, He. }
  split; [exact Ha|].
  now rewrite (get_average_elevation_assembled w self true (Err e)).
Qed.

(** A run of X13: the second of three calls is answered with status 500. *)
Lemma get_google_data_async_one_failure_witness :
  exists e,
    get_google_data_async (example_world (Some 1) (Some 1%nat) [2; 0; 1]%nat)
      (example_points 3 10%float) = Some (Err e) /\
    get_average_elevation (example_world (Some 1) (Some 1%nat) [2; 0; 1]%nat)
      (example_points 3 10%float) true = Some (Err e).
Proof.
  apply (get_google_data_async_one_failure
           (example_world (Some 1) (Some 1%nat) [2; 0; 1]%nat)
           (example_points 3 10%float)
           (map (make_uri (example_points 3 10%float))
              (repeat "-21.8303712,-49.127649"%string 3))
           1%nat
           (make_uri (example_points 3 10%float) "-21.8303712,-49.127649")).
  - reflexivity.
  - apply Permutation_sym. apply (Permutation_cons_app [2%nat] [1%nat] 0%nat).
    apply perm_swap.
  - reflexivity.
  - right. left. exists 500, (Err JSONDecodeError). split; [reflexivity|lia].
Defined.

(** ** No point at all *)

(** A run of the remark on empty input (X14): no point, default batch
    size. *)
Lemma get_average_elevation_no_point_witness :
  get_average_elevation (example_world None None []) (example_points 0 10%float) false
  = Some (Err (KeyError "z")).
Proof.
  apply (get_average_elevation_no_point (example_world None None [])
           (example_points 0 10%float) false eq_refl).
  cbn. lia.
Defined.
